(** * dev-mcps: the protocol dispatcher, the tool registry and the command executor

    A shallow embedding of [pkg/mcp] (parameter helpers, server loop, tool
    registry) and of [internal/command] (synchronous and asynchronous command
    execution), with the properties the specification states about them.

    Conventions.
    - A Go [string] is a byte string: Rocq's [string], one [ascii] per byte.
    - A Go [int] is a signed machine integer of [intSize] bits, carried as [Z].
    - A Go [error] is carried by its message; [None] is the nil error.
    - A Go [map] is a [gmap]; iteration order over a Go map is unspecified, so
      nothing below depends on the order [map_to_list] happens to pick.
    - Everything the code obtains from outside (the JSON decoder, the clock,
      the id generator, the operating system's verdict on a subprocess) is an
      explicit argument of the function that consumes it. *)

From Stdlib Require Import ZArith Ascii String List SpecFloat.
From stdpp Require Import gmap strings list fin_maps pretty.

Local Open Scope string_scope.
Local Open Scope Z_scope.

#[local] Set Warnings "-register-all".

(** ** Go base types *)

Module Go.

(** The Go [error] interface, by message. *)
Definition error := string.

(** Width of [int] on the platforms the servers are built for. *)
Definition intSize : Z := 64.

Definition minInt : Z := - 2 ^ (intSize - 1).
Definition maxInt : Z := 2 ^ (intSize - 1) - 1.

Definition inInt (z : Z) : bool := (minInt <=? z) && (z <=? maxInt).

(** Two's complement wrap-around of an integer conversion to [int]. *)
Definition wrapInt (z : Z) : Z :=
  (z + 2 ^ (intSize - 1)) mod 2 ^ intSize - 2 ^ (intSize - 1).

(** A [float64] is an IEEE 754 binary64 datum: a zero, an infinity, a NaN or
    [(-1)^s * m * 2^e]. *)
Definition float64 := spec_float.

(** The integer obtained by discarding the fraction of a finite [float64]
    (truncation towards zero); infinities and NaN have none. *)
Definition truncFloat64 (f : float64) : option Z :=
  match f with
  | S754_zero _ => Some 0
  | S754_finite s m e =>
      let sm := if s then Z.neg m else Z.pos m in
      Some (if 0 <=? e then sm * 2 ^ e else Z.quot sm (2 ^ (- e)))
  | S754_infinity _ | S754_nan => None
  end.

(** The values a [map[string]interface{}] of tool arguments can hold: what
    [encoding/json] decodes to (nil, bool, float64, string, array, object)
    and the integer types a Go caller may store directly. *)
Inductive Value : Type :=
| VNil
| VBool (b : bool)
| VFloat64 (f : float64)
| VInt (n : Z)
| VInt64 (n : Z)
| VString (s : string)
| VArray (l : list Value)
| VObject (m : gmap string Value).

End Go.

Import Go.

(** ** pkg/mcp: parameter helpers *)

Module mcp.

(** A Go [(T, error)] pair whose two halves are never both meaningful. *)
Inductive Result (A : Type) : Type :=
| Ok (a : A)
| Err (e : error).
Arguments Ok {A} a.
Arguments Err {A} e.

Definition isErr {A} (r : Result A) : bool :=
  match r with Ok _ => false | Err _ => true end.

Section Helpers.

(** [int(n)] for a [float64] the target type cannot represent (out of
    range, infinite, NaN): the language leaves the value to the
    implementation. *)
Variable floatToIntImpl : float64 -> Z.

Definition intOfFloat64 (f : float64) : Z :=
  match truncFloat64 f with
  | Some z => if inInt z then z else floatToIntImpl f
  | None => floatToIntImpl f
  end.

Definition GetStringParam (params : gmap string Value) (key : string)
    (required : bool) : Result string :=
  match params !! key with
  | None =>
      if required then Err ("missing required parameter: " +:+ key)
      else Ok ""
  | Some (VString s) => Ok s
  | Some _ => Err ("parameter " +:+ key +:+ " must be a string")
  end.

Definition GetIntParam (params : gmap string Value) (key : string)
    (required : bool) (defaultValue : Z) : Result Z :=
  match params !! key with
  | None =>
      if required then Err ("missing required parameter: " +:+ key)
      else Ok defaultValue
  | Some (VFloat64 n) => Ok (intOfFloat64 n)
  | Some (VInt n) => Ok n
  | Some (VInt64 n) => Ok (wrapInt n)
  | Some _ => Err ("parameter " +:+ key +:+ " must be an integer")
  end.

Definition GetBoolParam (params : gmap string Value) (key : string)
    (defaultValue : bool) : Result bool :=
  match params !! key with
  | None => Ok defaultValue
  | Some (VBool b) => Ok b
  | Some _ => Err ("parameter " +:+ key +:+ " must be a boolean")
  end.

End Helpers.

(** The values [GetIntParam] takes for numbers. *)
Definition numeric (v : Value) : bool :=
  match v with
  | VFloat64 _ | VInt _ | VInt64 _ => true
  | _ => false
  end.

(** *** Arrays and objects of strings *)

(** The loop of [GetStringArrayParam] from index [i] on: the strings of the
    array, or the error naming the first element that is not a string. *)
Fixpoint stringItems (key : string) (i : nat) (arr : list Value)
    : Result (list string) :=
  match arr with
  | [] => Ok []
  | VString s :: rest =>
      match stringItems key (S i) rest with
      | Ok l => Ok (s :: l)
      | Err e => Err e
      end
  | _ :: _ =>
      Err ("parameter " +:+ key +:+ "[" +:+ pretty i +:+ "] must be a string")
  end.

(** A nil slice is the empty list. *)
Definition GetStringArrayParam (params : gmap string Value) (key : string)
    (required : bool) : Result (list string) :=
  match params !! key with
  | None =>
      if required then Err ("missing required parameter: " +:+ key)
      else Ok []
  | Some (VArray arr) => stringItems key 0 arr
  | Some _ => Err ("parameter " +:+ key +:+ " must be an array")
  end.

(** The loop of [GetMapParam] over the entries in the order the iteration
    visits them, [acc] being the result map so far. *)
Fixpoint stringEntries (key : string) (entries : list (string * Value))
    (acc : gmap string string) : Result (gmap string string) :=
  match entries with
  | [] => Ok acc
  | (k, VString s) :: rest => stringEntries key rest (<[k := s]> acc)
  | (k, _) :: _ =>
      Err ("parameter " +:+ key +:+ "." +:+ k +:+ " must be a string")
  end.

(** A nil map is the empty map. The iteration order of the object is the
    one [map_to_list] gives; Go's is unspecified. *)
Definition GetMapParam (params : gmap string Value) (key : string)
    (required : bool) : Result (gmap string string) :=
  match params !! key with
  | None =>
      if required then Err ("missing required parameter: " +:+ key)
      else Ok ∅
  | Some (VObject m) => stringEntries key (map_to_list m) ∅
  | Some _ => Err ("parameter " +:+ key +:+ " must be an object")
  end.

(** The first component of the Go pair a helper returns: the zero value of
    the type when the helper reports an error ([x, _ := helper(...)]). *)
Definition valueOrZero {A : Type} (zero : A) (r : Result A) : A :=
  match r with
  | Ok a => a
  | Err _ => zero
  end.

(** ** pkg/mcp: tool results *)

Record ContentBlock : Type := { Type_ : string; Text : string }.

Record ToolResult : Type := { Content : list ContentBlock; IsError : bool }.

Definition TextResult (text : string) : ToolResult :=
  {| Content := [ {| Type_ := "text"; Text := text |} ]; IsError := false |}.

Definition ErrorResult (err : error) : ToolResult :=
  {| Content := [ {| Type_ := "text"; Text := err |} ]; IsError := true |}.

(** [JSONResult(v)], [marshalIndent] being [json.MarshalIndent] on the type
    of [v]: the Go pair of the text result and the encoder's error. *)
Definition JSONResult {A : Type} (marshalIndent : A -> Result string) (v : A)
    : option ToolResult * option error :=
  match marshalIndent v with
  | Err err => (None, Some err)
  | Ok data => (Some (TextResult data), None)
  end.

(** ** pkg/mcp: input schemas *)

Definition BuildInputSchema (properties : gmap string Value)
    (required : list string) : gmap string Value :=
  {[ "type" := VString "object";
     "properties" := VObject properties;
     "required" := VArray (VString <$> required) ]}.

Definition StringProperty (description : string) : Value :=
  VObject {[ "type" := VString "string";
             "description" := VString description ]}.

(** ** pkg/mcp: envelopes *)

Record Request : Type :=
  { JSONRPC : string; ID : Value; Method : string; Params : string }.

Record RPCError : Type :=
  { Code : Z; Message : string; Data : string }.

(** One entry of the [tools/list] payload. *)
Record ToolInfo : Type :=
  { info_name : string;
    info_description : string;
    info_inputSchema : gmap string Value }.

(** What the server stores in [Response.Result]: the [initialize] map, the
    [tools/list] map, or the [ToolResult] pointer of a call (a handler may
    return a nil pointer together with a nil error). *)
Inductive Payload : Type :=
| PInitialize (protocolVersion serverName serverVersion : string)
| PTools (tools : list ToolInfo)
| PToolResult (r : option ToolResult).

Record Response : Type :=
  { resp_JSONRPC : string;
    resp_ID : Value;
    resp_Result : option Payload;
    resp_Error : option RPCError }.

(** The [tools/list] entries carrying a given name. *)
Definition entriesNamed (n : string) (l : list ToolInfo) : list ToolInfo :=
  filter (λ i, info_name i = n) l.

(** ** pkg/mcp: the server *)

Section Server.

(** Whatever the registered handlers act on (file system, task table...). *)
Variable World : Type.

(** [json.Unmarshal(line, &req)]. *)
Variable unmarshalRequest : string -> Result Request.

(** [json.Unmarshal(req.Params, &params)] into [{name, arguments}]. *)
Variable unmarshalCallParams : string -> Result (string * gmap string Value).

(** [json.Marshal(resp)]: the encoded line, or [None] when encoding fails. *)
Variable marshal : Response -> option string.

(** A handler returns the Go pair of a [ToolResult] pointer and an
    [error], and may change the world; the context it is handed is part of
    that world. *)
Definition ToolHandler : Type :=
  gmap string Value -> World -> (option ToolResult * option error) * World.

Record Tool : Type :=
  { Name : string;
    Description : string;
    InputSchema : gmap string Value;
    Handler : ToolHandler }.

(** The mutex guards [tools]; input and output are the argument and the
    result of [Run]. *)
Record Server : Type :=
  { name : string; version : string; tools : gmap string Tool }.

Definition NewServer (name version : string) : Server :=
  {| name := name; version := version; tools := ∅ |}.

Definition RegisterTool (s : Server) (tool : Tool) : Server :=
  {| name := name s;
     version := version s;
     tools := <[Name tool := tool]> (tools s) |}.

(** [send]: one line per response, none when it cannot be encoded. *)
Definition send (resp : Response) : list string :=
  match marshal resp with
  | Some data => [data]
  | None => []
  end.

Definition resultResponse (id : Value) (result : Payload) : Response :=
  {| resp_JSONRPC := "2.0"; resp_ID := id;
     resp_Result := Some result; resp_Error := None |}.

Definition errorResponse (id : Value) (code : Z) (message data : string)
    : Response :=
  {| resp_JSONRPC := "2.0"; resp_ID := id;
     resp_Result := None;
     resp_Error :=
       Some {| Code := code; Message := message; Data := data |} |}.

Definition sendResult (id : Value) (result : Payload) : list string :=
  send (resultResponse id result).

Definition sendError (id : Value) (code : Z) (message data : string)
    : list string :=
  send (errorResponse id code message data).

Definition handleInitialize (s : Server) (req : Request) : list string :=
  sendResult (ID req) (PInitialize "2024-11-05" (name s) (version s)).

Definition toolInfo (tool : Tool) : ToolInfo :=
  {| info_name := Name tool;
     info_description := Description tool;
     info_inputSchema := InputSchema tool |}.

(** The entries of the [tools/list] payload, one per map binding. *)
Definition listTools (s : Server) : list ToolInfo :=
  (λ kv, toolInfo kv.2) <$> map_to_list (tools s).

Definition handleToolsList (s : Server) (req : Request) : list string :=
  sendResult (ID req) (PTools (listTools s)).

Definition handleToolsCall (s : Server) (req : Request) (w : World)
    : list string * World :=
  match unmarshalCallParams (Params req) with
  | Err e => (sendError (ID req) (-32602) "Invalid params" e, w)
  | Ok (toolName, arguments) =>
      match tools s !! toolName with
      | None => (sendError (ID req) (-32602) "Unknown tool" toolName, w)
      | Some tool =>
          match Handler tool arguments w with
          | ((_, Some err), w') =>
              (sendResult (ID req) (PToolResult (Some (ErrorResult err))),
               w')
          | ((result, None), w') =>
              (sendResult (ID req) (PToolResult result), w')
          end
      end
  end.

Definition handleRequest (s : Server) (req : Request) (w : World)
    : list string * World :=
  if String.eqb (Method req) "initialize" then (handleInitialize s req, w)
  else if String.eqb (Method req) "tools/list" then
    (handleToolsList s req, w)
  else if String.eqb (Method req) "tools/call" then handleToolsCall s req w
  else if String.eqb (Method req) "notifications/initialized" then ([], w)
  else (sendError (ID req) (-32601) "Method not found" (Method req), w).

(** The outcome of [Run]: the error it returns, the lines written to the
    output, the world the handlers leave. *)
Record RunResult : Type :=
  { run_err : option error; run_output : list string; run_world : World }.

(** [for scanner.Scan() { ... }] from the [i]-th frame on. [ctxDone i]
    tells whether the context is found done at the head of iteration [i];
    [scanErr] is what [scanner.Err()] reports once [Scan] has returned
    false ([None] at end of input). *)
Fixpoint runFrom (s : Server) (ctxDone : nat -> bool)
    (scanErr : option error) (i : nat) (frames : list string) (w : World)
    : RunResult :=
  match frames with
  | [] => {| run_err := scanErr; run_output := []; run_world := w |}
  | line :: rest =>
      if ctxDone i then
        {| run_err := Some "context canceled";
           run_output := []; run_world := w |}
      else if (String.length line =? 0)%nat then
        runFrom s ctxDone scanErr (S i) rest w
      else
        match unmarshalRequest line with
        | Err e =>
            let r := runFrom s ctxDone scanErr (S i) rest w in
            {| run_err := run_err r;
               run_output :=
                 sendError VNil (-32700) "Parse error" e ++ run_output r;
               run_world := run_world r |}
        | Ok req =>
            let '(out, w') := handleRequest s req w in
            let r := runFrom s ctxDone scanErr (S i) rest w' in
            {| run_err := run_err r;
               run_output := out ++ run_output r;
               run_world := run_world r |}
        end
  end.

Definition Run (s : Server) (ctxDone : nat -> bool)
    (scanErr : option error) (frames : list string) (w : World)
    : RunResult :=
  runFrom s ctxDone scanErr 0 frames w.

(** Every tool is stored under its own name: true of a new server and kept
    by every registration. *)
Definition keyedByName (s : Server) : Prop :=
  forall k t, tools s !! k = Some t -> Name t = k.

(** What a call that reaches a tool answers. *)
Definition callAnswer (tool : Tool) (id : Value)
    (arguments : gmap string Value) (w : World) : list string * World :=
  match Handler tool arguments w with
  | ((_, Some err), w') =>
      (sendResult id (PToolResult (Some (ErrorResult err))), w')
  | ((result, None), w') => (sendResult id (PToolResult result), w')
  end.

End Server.

End mcp.

(** ** internal/common: the command validator *)

Module common.

Definition ErrInvalidInput : error := "invalid input".
Definition ErrCommandDenied : error := "command denied".

(** [strings.HasPrefix(s, prefix)]. *)
Definition HasPrefix (s pre : string) : bool := String.prefix pre s.

(** [strings.Contains(s, substr)]: [substr] starts at some position of [s]. *)
Fixpoint Contains (s substr : string) : bool :=
  HasPrefix s substr
  || match s with
     | EmptyString => false
     | String _ rest => Contains rest substr
     end.

(** [strings.Join(elems, sep)]. *)
Definition Join (elems : list string) (sep : string) : string :=
  String.concat sep elems.

Record CommandValidator : Type :=
  { AllowedCommands : list string; DeniedCommands : list string }.

Definition NewCommandValidator (allowed denied : list string)
    : CommandValidator :=
  {| AllowedCommands := allowed; DeniedCommands := denied |}.

(** The command line the denied patterns are searched in. *)
Definition fullCommand (command : string) (args : list string) : string :=
  if (0 <? length args)%nat then command +:+ " " +:+ Join args " "
  else command.

(** [ValidateCommand]: [None] is the nil error. *)
Definition ValidateCommand (v : CommandValidator) (command : string)
    (args : list string) : option error :=
  if String.eqb command "" then Some (ErrInvalidInput +:+ ": empty command")
  else
    match find (Contains (fullCommand command args)) (DeniedCommands v) with
    | Some denied =>
        Some (ErrCommandDenied +:+ ": command matches denied pattern: "
              +:+ denied)
    | None =>
        if (length (AllowedCommands v) =? 0)%nat then None
        else if existsb (HasPrefix command) (AllowedCommands v) then None
        else Some (ErrCommandDenied +:+ ": command not in allowed list")
    end.

End common.

(** ** internal/command: the executor *)

Module command.

(** The fields of [config.CommandConfig] the executor reads. *)
Record CommandConfig : Type :=
  { DefaultShell : string;
    DefaultTimeoutSeconds : Z;
    MaxOutputSizeBytes : Z;
    WorkingDirectory : string }.

(** A [time.Time], in nanoseconds since the zero instant (January 1, year 1,
    UTC): [IsZero] holds of 0 alone. *)
Definition Time : Type := Z.

Definition IsZero (t : Time) : bool := t =? 0.

Definition maxDuration : Z := 2 ^ 63 - 1.
Definition minDuration : Z := - 2 ^ 63.

(** [t.Sub(u)]: the difference, saturated to the range of a [Duration]. *)
Definition Sub (t u : Time) : Z :=
  Z.max minDuration (Z.min maxDuration (t - u)).

(** [d.Milliseconds()]. *)
Definition Milliseconds (d : Z) : Z := Z.quot d 1000000.

(** [t.Unix()]: seconds since January 1, 1970 UTC. *)
Definition Unix (t : Time) : Z := t / 1000000000 - 62135596800.

(** An [exec.Cmd] as the executor sets it up: [Env = None] is the nil slice
    (the child inherits the environment). *)
Record Cmd : Type :=
  { Path : string; Args : list string; Dir : string;
    Env : option (list string) }.

(** [exec.CommandContext] followed by the [Dir] and [Env] assignments both
    [RunSync] and [RunAsync] make; [environ] is [cmd.Environ()]. *)
Definition newCmd (cfg : CommandConfig) (environ : list string)
    (command : string) (args : list string) (cwd : string)
    (env : gmap string string) : Cmd :=
  {| Path := command;
     Args := args;
     Dir :=
       if negb (String.eqb cwd "") then cwd
       else if negb (String.eqb (WorkingDirectory cfg) "")
            then WorkingDirectory cfg
            else "";
     Env :=
       if (0 <? size env)%nat
       then Some (environ ++ ((λ kv, kv.1 +:+ "=" +:+ kv.2) <$> map_to_list env))%list
       else None |}.

(** The non-nil errors of [cmd.Run] and [cmd.Wait]: an [exec.ExitError] (the
    process ended unsuccessfully; [ExitCode()] is its exit status, or -1 when
    a signal ended it), or any other error (the command could not be started,
    the context's error after a kill, an I/O failure). *)
Inductive ProcError : Type :=
| ExitError (code : Z)
| OtherError (msg : error).

(** A non-nil [ctx.Err()]. *)
Inductive CtxError : Type :=
| DeadlineExceeded
| Canceled.

(** What running the subprocess to its end hands back to [RunSync]: the two
    capture buffers, [cmd.Run]'s error, [ctx.Err()] read afterwards, and the
    time the run took in nanoseconds. *)
Record RunOutcome : Type :=
  { ran_stdout : string;
    ran_stderr : string;
    ran_err : option ProcError;
    ran_ctxErr : option CtxError;
    ran_duration : Z }.

Module CommandResult.
Record t : Type :=
  { ExitCode : Z; Stdout : string; Stderr : string; DurationMs : Z;
    CommandID : string }.
End CommandResult.

(** ["\n... (truncated)"]. *)
Definition truncationMarker : string :=
  String (Ascii.ascii_of_nat 10) "... (truncated)".

Definition timedOutMarker : string := "command timed out".

(** [if len(s) > max { s = s[:max] + marker }]; [None] is the run-time panic
    of slicing with a negative bound. *)
Definition truncateOutput (max : Z) (s : string) : option string :=
  if Z.of_nat (String.length s) >? max then
    if max <? 0 then None
    else Some (String.substring 0 (Z.to_nat max) s +:+ truncationMarker)
  else Some s.

(** [timeoutSeconds] after the first statement of [RunSync]: the configured
    default in place of an argument that is not positive. *)
Definition effectiveTimeout (cfg : CommandConfig) (timeoutSeconds : Z) : Z :=
  if timeoutSeconds <=? 0 then DefaultTimeoutSeconds cfg else timeoutSeconds.

(** Two's complement wrap-around of [int64] arithmetic. *)
Definition wrapInt64 (z : Z) : Z := (z + 2 ^ 63) mod 2 ^ 64 - 2 ^ 63.

(** [time.Duration(timeoutSeconds) * time.Second]: the timeout [RunSync]
    hands to [context.WithTimeout], in nanoseconds. A [Duration] is an
    [int64], and the product wraps around. *)
Definition timeoutDuration (cfg : CommandConfig) (timeoutSeconds : Z) : Z :=
  wrapInt64 (effectiveTimeout cfg timeoutSeconds * 1000000000).

(** The [if err != nil { ... }] block of [RunSync]. *)
Definition recordError (err : option ProcError) (ctxErr : option CtxError)
    (r : CommandResult.t) : CommandResult.t :=
  match err with
  | None => r
  | Some (ExitError code) =>
      {| CommandResult.ExitCode := code;
         CommandResult.Stdout := CommandResult.Stdout r;
         CommandResult.Stderr := CommandResult.Stderr r;
         CommandResult.DurationMs := CommandResult.DurationMs r;
         CommandResult.CommandID := CommandResult.CommandID r |}
  | Some (OtherError msg) =>
      {| CommandResult.ExitCode := -1;
         CommandResult.Stdout := CommandResult.Stdout r;
         CommandResult.Stderr :=
           match ctxErr with
           | Some DeadlineExceeded => timedOutMarker
           | _ => msg
           end;
         CommandResult.DurationMs := CommandResult.DurationMs r;
         CommandResult.CommandID := CommandResult.CommandID r |}
  end.

(** The two truncation statements that close [RunSync]. *)
Definition truncateResult (max : Z) (r : CommandResult.t)
    : option CommandResult.t :=
  match truncateOutput max (CommandResult.Stdout r) with
  | None => None
  | Some out =>
      match truncateOutput max (CommandResult.Stderr r) with
      | None => None
      | Some err =>
          Some {| CommandResult.ExitCode := CommandResult.ExitCode r;
                  CommandResult.Stdout := out;
                  CommandResult.Stderr := err;
                  CommandResult.DurationMs := CommandResult.DurationMs r;
                  CommandResult.CommandID := CommandResult.CommandID r |}
      end
  end.

(** [RunSync] from the point where [cmd.Run] has returned. *)
Definition syncResult (cfg : CommandConfig) (o : RunOutcome)
    : option CommandResult.t :=
  let result :=
    {| CommandResult.ExitCode := 0;
       CommandResult.Stdout := ran_stdout o;
       CommandResult.Stderr := ran_stderr o;
       CommandResult.DurationMs := Milliseconds (ran_duration o);
       CommandResult.CommandID := "" |} in
  truncateResult (MaxOutputSizeBytes cfg)
    (recordError (ran_err o) (ran_ctxErr o) result).

(** [RunSync]: [run] is the operating system, which takes the command and the
    number of seconds the timeout of the context is computed from (see
    [timeoutDuration]) and runs the subprocess until it exits or is killed.
    The Go function's error result is always nil; [None] is a panic. *)
Definition RunSync (cfg : CommandConfig) (environ : list string)
    (run : Cmd -> Z -> RunOutcome)
    (command : string) (args : list string) (cwd : string)
    (env : gmap string string) (timeoutSeconds : Z)
    : option CommandResult.t :=
  syncResult cfg
    (run (newCmd cfg environ command args cwd env)
         (effectiveTimeout cfg timeoutSeconds)).

(** *** What the specification asks of a synchronous run *)

(** What the specification asks of a truncated stream: unchanged up to the
    ceiling, and above it the first [max] bytes followed by the marker, once. *)
Definition truncatedTo (max : Z) (s result : string) : Prop :=
  (Z.of_nat (String.length s) <= max -> result = s)
  /\ (max < Z.of_nat (String.length s) ->
      result = String.substring 0 (Z.to_nat max) s +:+ truncationMarker
      /\ Z.of_nat (String.length result)
         = max + Z.of_nat (String.length truncationMarker)).

(** Whether [RunSync] leaves the captured stderr in the result. *)
Definition keepsStderr (err : option ProcError) : bool :=
  match err with
  | None | Some (ExitError _) => true
  | Some (OtherError _) => false
  end.

(** The text [RunSync] puts in place of the captured stderr otherwise. *)
Definition errorText (msg : error) (ctxErr : option CtxError) : string :=
  match ctxErr with
  | Some DeadlineExceeded => timedOutMarker
  | _ => msg
  end.

(** What [os/exec] reports when the deadline passes first: the runtime kills
    the subprocess, [cmd.Run] returns the [exec.ExitError] of a process ended
    by a signal (exit code -1), and the context's error is
    [DeadlineExceeded]. *)
Definition killedAtDeadline (out err : string) (timeoutSeconds : Z)
    : RunOutcome :=
  {| ran_stdout := out;
     ran_stderr := err;
     ran_err := Some (ExitError (-1));
     ran_ctxErr := Some DeadlineExceeded;
     ran_duration := timeoutSeconds * 1000000000 |}.

(** *** Asynchronous commands *)

Module AsyncCommand.
(** [Cancelled] is the state of the context behind the [Cancel] function:
    true once [Cancel()] has been called, which makes the runtime kill the
    subprocess. [Stdout] and [Stderr] are the contents of the two buffers. *)
Record t : Type :=
  { ID : string;
    Cmd : command.Cmd;
    Stdout : string;
    Stderr : string;
    StartTime : Time;
    EndTime : Time;
    Status : string;
    ExitCode : Z;
    Cancelled : bool }.

Definition setStdout (v : string) (c : t) : t :=
  {| ID := ID c; Cmd := Cmd c; Stdout := v; Stderr := Stderr c;
     StartTime := StartTime c; EndTime := EndTime c; Status := Status c;
     ExitCode := ExitCode c; Cancelled := Cancelled c |}.

Definition setStderr (v : string) (c : t) : t :=
  {| ID := ID c; Cmd := Cmd c; Stdout := Stdout c; Stderr := v;
     StartTime := StartTime c; EndTime := EndTime c; Status := Status c;
     ExitCode := ExitCode c; Cancelled := Cancelled c |}.

Definition setEndTime (v : Time) (c : t) : t :=
  {| ID := ID c; Cmd := Cmd c; Stdout := Stdout c; Stderr := Stderr c;
     StartTime := StartTime c; EndTime := v; Status := Status c;
     ExitCode := ExitCode c; Cancelled := Cancelled c |}.

Definition setStatus (v : string) (c : t) : t :=
  {| ID := ID c; Cmd := Cmd c; Stdout := Stdout c; Stderr := Stderr c;
     StartTime := StartTime c; EndTime := EndTime c; Status := v;
     ExitCode := ExitCode c; Cancelled := Cancelled c |}.

Definition setExitCode (v : Z) (c : t) : t :=
  {| ID := ID c; Cmd := Cmd c; Stdout := Stdout c; Stderr := Stderr c;
     StartTime := StartTime c; EndTime := EndTime c; Status := Status c;
     ExitCode := v; Cancelled := Cancelled c |}.

(** [c.Cancel()]. *)
Definition cancel (c : t) : t :=
  {| ID := ID c; Cmd := Cmd c; Stdout := Stdout c; Stderr := Stderr c;
     StartTime := StartTime c; EndTime := EndTime c; Status := Status c;
     ExitCode := ExitCode c; Cancelled := true |}.
End AsyncCommand.

(** The three terminal statuses. *)
Definition terminal (status : string) : bool :=
  String.eqb status "completed" || String.eqb status "failed"
  || String.eqb status "cancelled".

(** [asyncCommands] is the [sync.Map] from command id to the (shared) task
    record: updating a record through its pointer is updating the binding. *)
Record Executor : Type :=
  { config : CommandConfig;
    asyncCommands : gmap string AsyncCommand.t }.

Definition NewExecutor (cfg : CommandConfig) : Executor :=
  {| config := cfg; asyncCommands := ∅ |}.

(** The record [RunAsync] builds before it starts the subprocess. *)
Definition newAsyncCommand (id : string) (cmd : Cmd) (now : Time)
    : AsyncCommand.t :=
  {| AsyncCommand.ID := id;
     AsyncCommand.Cmd := cmd;
     AsyncCommand.Stdout := "";
     AsyncCommand.Stderr := "";
     AsyncCommand.StartTime := now;
     AsyncCommand.EndTime := 0;
     AsyncCommand.Status := "running";
     AsyncCommand.ExitCode := 0;
     AsyncCommand.Cancelled := false |}.

(** [RunAsync] up to the launch of the watcher. From outside come [id]
    ([uuid.New().String()]), [now] ([time.Now()]) and [startErr], the result
    of [cmd.Start()]. The result is the Go pair (id, error). *)
Definition RunAsync (e : Executor) (environ : list string)
    (id : string) (now : Time) (startErr : option error)
    (command : string) (args : list string) (cwd : string)
    (env : gmap string string)
    : (string * option error) * Executor :=
  let cmd := newCmd (config e) environ command args cwd env in
  let asyncCmd := newAsyncCommand id cmd now in
  match startErr with
  | Some err => (("", Some err), e)
  | None =>
      ((AsyncCommand.ID asyncCmd, None),
       {| config := config e;
          asyncCommands :=
            <[AsyncCommand.ID asyncCmd := asyncCmd]> (asyncCommands e) |})
  end.

(** The three assignments of the watcher goroutine, once [cmd.Wait()] has
    returned [err]. *)
Definition watcherExitCode (err : option ProcError) : Z :=
  match err with
  | None => 0
  | Some (ExitError code) => code
  | Some (OtherError _) => -1
  end.

Definition watcherStatus (err : option ProcError) : string :=
  match err with
  | None => "completed"
  | Some (ExitError _) => "failed"
  | Some (OtherError _) => "cancelled"
  end.

(** The watcher's terminal transition, run in one piece. *)
Definition watcherFinish (now : Time) (err : option ProcError)
    (c : AsyncCommand.t) : AsyncCommand.t :=
  AsyncCommand.setStatus (watcherStatus err)
    (AsyncCommand.setExitCode (watcherExitCode err)
       (AsyncCommand.setEndTime now c)).

(** The same transition seen from the table: the watcher of task [id] owns
    the pointer the table stores under [id]. *)
Definition watcherExit (e : Executor) (id : string) (now : Time)
    (err : option ProcError) : Executor :=
  {| config := config e;
     asyncCommands := alter (watcherFinish now err) id (asyncCommands e) |}.

Definition GetStatus (e : Executor) (commandID : string)
    : option AsyncCommand.t :=
  asyncCommands e !! commandID.

Definition CancelCommand (e : Executor) (commandID : string)
    : bool * Executor :=
  match asyncCommands e !! commandID with
  | Some asyncCmd =>
      if String.eqb (AsyncCommand.Status asyncCmd) "running" then
        (true,
         {| config := config e;
            asyncCommands :=
              <[commandID :=
                  AsyncCommand.setStatus "cancelled"
                    (AsyncCommand.cancel asyncCmd)]> (asyncCommands e) |})
      else (false, e)
  | None => (false, e)
  end.

(** *** The status and cancel tools *)

(** The map [handleGetCommandStatus] builds: [duration_ms] and [elapsed_ms]
    are the two keys of which exactly one is present. Under [elapsed_ms]
    the code stores [StartTime.Unix()], the start time in seconds. *)
Record StatusResult : Type :=
  { command_id : string;
    status : string;
    exit_code : Z;
    stdout : string;
    stderr : string;
    duration_ms : option Z;
    elapsed_ms : option Z }.

(** The map, from the values read off the task record. *)
Definition statusResult (id status : string) (exitCode : Z)
    (out err : string) (startTime endTime : Time) : StatusResult :=
  {| command_id := id;
     status := status;
     exit_code := exitCode;
     stdout := out;
     stderr := err;
     duration_ms :=
       if negb (IsZero endTime)
       then Some (Milliseconds (Sub endTime startTime)) else None;
     elapsed_ms :=
       if negb (IsZero endTime) then None else Some (Unix startTime) |}.

(** The map for a record that nothing changes while it is read. *)
Definition statusOf (c : AsyncCommand.t) : StatusResult :=
  statusResult (AsyncCommand.ID c) (AsyncCommand.Status c)
    (AsyncCommand.ExitCode c) (AsyncCommand.Stdout c) (AsyncCommand.Stderr c)
    (AsyncCommand.StartTime c) (AsyncCommand.EndTime c).

Section Tools.

(** [json.MarshalIndent] on the status map. *)
Variable marshalIndent : StatusResult -> mcp.Result string.

Definition handleGetCommandStatus (params : gmap string Value) (e : Executor)
    : (option mcp.ToolResult * option error) * Executor :=
  match mcp.GetStringParam params "command_id" true with
  | mcp.Err err => ((None, Some err), e)
  | mcp.Ok commandID =>
      match GetStatus e commandID with
      | None => ((None, Some ("command not found: " +:+ commandID)), e)
      | Some asyncCmd =>
          match marshalIndent (statusOf asyncCmd) with
          | mcp.Err err => ((None, Some err), e)
          | mcp.Ok data => ((Some (mcp.TextResult data), None), e)
          end
      end
  end.

Definition handleCancelCommand (params : gmap string Value) (e : Executor)
    : (option mcp.ToolResult * option error) * Executor :=
  match mcp.GetStringParam params "command_id" true with
  | mcp.Err err => ((None, Some err), e)
  | mcp.Ok commandID =>
      let '(accepted, e') := CancelCommand e commandID in
      if accepted then
        ((Some (mcp.TextResult ("Command " +:+ commandID +:+ " cancelled")),
          None), e')
      else
        ((None,
          Some ("command not found or already completed: " +:+ commandID)),
         e')
  end.

Definition getCommandStatusTool : mcp.Tool Executor :=
  {| mcp.Name := "get_command_status";
     mcp.Description := "Get status of an async command";
     mcp.InputSchema :=
       mcp.BuildInputSchema
         {[ "command_id" := mcp.StringProperty "ID of the async command" ]}
         ["command_id"];
     mcp.Handler := handleGetCommandStatus |}.

Definition cancelCommandTool : mcp.Tool Executor :=
  {| mcp.Name := "cancel_command";
     mcp.Description := "Cancel a running async command";
     mcp.InputSchema :=
       mcp.BuildInputSchema
         {[ "command_id" := mcp.StringProperty "ID of the command to cancel" ]}
         ["command_id"];
     mcp.Handler := handleCancelCommand |}.

End Tools.

(** *** One task, its watcher and the request loop, interleaved

    The watcher goroutine and the request handlers share the task record
    without a lock. The model below runs them as an interleaving of their
    individual reads and writes of the record's fields, each read and write
    taking effect at once and in the order of the program text; requests
    come one at a time (the dispatch loop is sequential), so at most one
    handler is in flight.

    Every schedule of the model is an execution of the code, the one in
    which the goroutines happen to be scheduled that way. The code is not
    limited to them: with no lock and no atomic access, nothing orders the
    stores of the watcher for a handler that loads the fields. A schedule
    that shows a behaviour therefore shows a behaviour of the code, while a
    fact about all schedules is a fact about the code only as far as it does
    not rest on that order. *)

(** Where the watcher stands: blocked in [cmd.Wait()], or before one of its
    three assignments with [Wait]'s error in hand, or finished. *)
Inductive WatcherPC : Type :=
| WWait
| WSetEndTime (err : option ProcError)
| WSetExitCode (err : option ProcError)
| WSetStatus (err : option ProcError)
| WDone (err : option ProcError).

(** The fields a status request has read so far. The operands of the map
    literal are read in an order the language does not fix; [EndTime] is read
    by the statement that follows it. *)
Record Pending : Type :=
  { p_status : option string;
    p_exit_code : option Z;
    p_stdout : option string;
    p_stderr : option string }.

Definition noneRead : Pending :=
  {| p_status := None; p_exit_code := None;
     p_stdout := None; p_stderr := None |}.

(** Where the handler in flight stands: none, a status request, or a cancel
    request that has seen ["running"] and is before [Cancel()], or before the
    assignment of ["cancelled"]. *)
Inductive HandlerPC : Type :=
| HIdle
| HStatus (p : Pending)
| HCancelCall
| HCancelStore.

Record Config : Type :=
  { task : AsyncCommand.t;
    watcher : WatcherPC;
    handler : HandlerPC;
    snapshots : list StatusResult;
    cancels : list bool }.

(** The atomic steps. *)
Inductive Event : Type :=
| EvStdout (data : string)
| EvStderr (data : string)
| EvWaitReturns (err : option ProcError)
| EvWatcher (now : Time)
| EvQuery
| EvReadStatus
| EvReadExitCode
| EvReadStdout
| EvReadStderr
| EvReadEndTime
| EvCancel
| EvCancelNext.

Definition withTask (f : AsyncCommand.t -> AsyncCommand.t) (c : Config)
    : Config :=
  {| task := f (task c); watcher := watcher c; handler := handler c;
     snapshots := snapshots c; cancels := cancels c |}.

Definition withWatcher (pc : WatcherPC) (c : Config) : Config :=
  {| task := task c; watcher := pc; handler := handler c;
     snapshots := snapshots c; cancels := cancels c |}.

Definition withHandler (pc : HandlerPC) (c : Config) : Config :=
  {| task := task c; watcher := watcher c; handler := pc;
     snapshots := snapshots c; cancels := cancels c |}.

Definition emitSnapshot (r : StatusResult) (c : Config) : Config :=
  {| task := task c; watcher := watcher c; handler := HIdle;
     snapshots := r :: snapshots c; cancels := cancels c |}.

Definition emitCancel (accepted : bool) (c : Config) : Config :=
  {| task := task c; watcher := watcher c; handler := HIdle;
     snapshots := snapshots c; cancels := accepted :: cancels c |}.

(** One step of the watcher: its three assignments in the order of the
    program text, each visible to the handlers at once (see the remark
    above). The clock never reads the zero instant. *)
Definition stepWatcher (now : Time) (c : Config) : option Config :=
  match watcher c with
  | WSetEndTime err =>
      if IsZero now then None
      else Some (withWatcher (WSetExitCode err)
                   (withTask (AsyncCommand.setEndTime now) c))
  | WSetExitCode err =>
      Some (withWatcher (WSetStatus err)
              (withTask (AsyncCommand.setExitCode (watcherExitCode err)) c))
  | WSetStatus err =>
      Some (withWatcher (WDone err)
              (withTask (AsyncCommand.setStatus (watcherStatus err)) c))
  | WWait | WDone _ => None
  end.

(** One read of a status request: a load of one field, which sees the
    latest store (see the remark above). *)
Definition stepRead (ev : Event) (p : Pending) (c : Config) : option Config :=
  match ev with
  | EvReadStatus =>
      match p_status p with
      | Some _ => None
      | None =>
          Some (withHandler
                  (HStatus {| p_status := Some (AsyncCommand.Status (task c));
                              p_exit_code := p_exit_code p;
                              p_stdout := p_stdout p;
                              p_stderr := p_stderr p |}) c)
      end
  | EvReadExitCode =>
      match p_exit_code p with
      | Some _ => None
      | None =>
          Some (withHandler
                  (HStatus {| p_status := p_status p;
                              p_exit_code :=
                                Some (AsyncCommand.ExitCode (task c));
                              p_stdout := p_stdout p;
                              p_stderr := p_stderr p |}) c)
      end
  | EvReadStdout =>
      match p_stdout p with
      | Some _ => None
      | None =>
          Some (withHandler
                  (HStatus {| p_status := p_status p;
                              p_exit_code := p_exit_code p;
                              p_stdout := Some (AsyncCommand.Stdout (task c));
                              p_stderr := p_stderr p |}) c)
      end
  | EvReadStderr =>
      match p_stderr p with
      | Some _ => None
      | None =>
          Some (withHandler
                  (HStatus {| p_status := p_status p;
                              p_exit_code := p_exit_code p;
                              p_stdout := p_stdout p;
                              p_stderr :=
                                Some (AsyncCommand.Stderr (task c)) |}) c)
      end
  | EvReadEndTime =>
      match p_status p, p_exit_code p, p_stdout p, p_stderr p with
      | Some st, Some code, Some out, Some err =>
          Some (emitSnapshot
                  (statusResult (AsyncCommand.ID (task c)) st code out err
                     (AsyncCommand.StartTime (task c))
                     (AsyncCommand.EndTime (task c))) c)
      | _, _, _, _ => None
      end
  | _ => None
  end.

(** One step of the whole system; [None] when the event is not enabled. *)
Definition step (ev : Event) (c : Config) : option Config :=
  match ev with
  | EvStdout data =>
      match watcher c with
      | WWait =>
          Some (withTask (λ t, AsyncCommand.setStdout
                                 (AsyncCommand.Stdout t +:+ data) t) c)
      | _ => None
      end
  | EvStderr data =>
      match watcher c with
      | WWait =>
          Some (withTask (λ t, AsyncCommand.setStderr
                                 (AsyncCommand.Stderr t +:+ data) t) c)
      | _ => None
      end
  | EvWaitReturns err =>
      match watcher c with
      | WWait => Some (withWatcher (WSetEndTime err) c)
      | _ => None
      end
  | EvWatcher now => stepWatcher now c
  | EvQuery =>
      match handler c with
      | HIdle => Some (withHandler (HStatus noneRead) c)
      | _ => None
      end
  | EvCancel =>
      match handler c with
      | HIdle =>
          if String.eqb (AsyncCommand.Status (task c)) "running"
          then Some (withHandler HCancelCall c)
          else Some (emitCancel false c)
      | _ => None
      end
  | EvCancelNext =>
      match handler c with
      | HCancelCall =>
          Some (withHandler HCancelStore (withTask AsyncCommand.cancel c))
      | HCancelStore =>
          Some (emitCancel true
                  (withTask (AsyncCommand.setStatus "cancelled") c))
      | _ => None
      end
  | _ =>
      match handler c with
      | HStatus p => stepRead ev p c
      | _ => None
      end
  end.

(** A schedule, run from a configuration. *)
Fixpoint exec (evs : list Event) (c : Config) : option Config :=
  match evs with
  | [] => Some c
  | ev :: rest =>
      match step ev c with
      | Some c' => exec rest c'
      | None => None
      end
  end.

(** The system right after a successful [RunAsync]. *)
Definition spawned (id : string) (cmd : Cmd) (now : Time) : Config :=
  {| task := newAsyncCommand id cmd now;
     watcher := WWait;
     handler := HIdle;
     snapshots := [];
     cancels := [] |}.

(** *** The invariant of the interleaved system *)

(** The watcher has written the verdict of a clean exit. *)
Definition finishedClean (pc : WatcherPC) : Prop := pc = WDone None.

(** The watcher has got a non-nil error from [Wait] and has written the exit
    code. *)
Definition wroteFailure (pc : WatcherPC) : Prop :=
  match pc with
  | WSetStatus (Some _) | WDone (Some _) => True
  | _ => False
  end.

(** The watcher has written the end time. *)
Definition wroteEndTime (pc : WatcherPC) : Prop :=
  match pc with
  | WSetExitCode _ | WSetStatus _ | WDone _ => True
  | _ => False
  end.

(** A snapshot that says "completed" has exit code 0 and a duration, the one
    between the start and end times of the record. *)
Definition completeSnapshot (t : AsyncCommand.t) (r : StatusResult) : Prop :=
  exit_code r = 0
  /\ duration_ms r
     = Some (Milliseconds
               (Sub (AsyncCommand.EndTime t) (AsyncCommand.StartTime t)))
  /\ elapsed_ms r = None
  /\ IsZero (AsyncCommand.EndTime t) = false.

Record Inv (c : Config) : Prop :=
  { inv_status :
      AsyncCommand.Status (task c) = "completed" -> finishedClean (watcher c);
    inv_exit :
      AsyncCommand.ExitCode (task c) <> 0 -> wroteFailure (watcher c);
    inv_end :
      wroteEndTime (watcher c) -> IsZero (AsyncCommand.EndTime (task c)) = false;
    inv_read_status :
      forall p, handler c = HStatus p ->
        p_status p = Some "completed" -> finishedClean (watcher c);
    inv_read_exit :
      forall p, handler c = HStatus p ->
        forall x, p_exit_code p = Some x -> x <> 0 -> wroteFailure (watcher c);
    inv_snapshots :
      forall r, In r (snapshots c) -> status r = "completed" ->
        finishedClean (watcher c) /\ completeSnapshot (task c) r }.

(** *** The run tools *)

Section RunTools.

Variable floatToIntImpl : float64 -> Z.

(** [cmd.Environ()]. *)
Variable environ : list string.

(** The server's configuration, which is also its executor's. *)
Variable cfg : CommandConfig.

Variable validator : common.CommandValidator.

(** [json.MarshalIndent] on a command result, and on the map
    [{command_id, status: "running"}] for a given id. *)
Variable marshalResult : CommandResult.t -> mcp.Result string.
Variable marshalSpawned : string -> mcp.Result string.

(** [handleRunCommand]; [run] is the operating system, as for [RunSync], and
    [None] is the panic [RunSync] can raise. *)
Definition handleRunCommand (run : Cmd -> Z -> RunOutcome)
    (params : gmap string Value)
    : option (option mcp.ToolResult * option error) :=
  match mcp.GetStringParam params "command" true with
  | mcp.Err err => Some (None, Some err)
  | mcp.Ok command =>
      let args :=
        mcp.valueOrZero [] (mcp.GetStringArrayParam params "args" false) in
      let cwd := mcp.valueOrZero "" (mcp.GetStringParam params "cwd" false) in
      let env := mcp.valueOrZero ∅ (mcp.GetMapParam params "env" false) in
      let timeout :=
        mcp.valueOrZero 0
          (mcp.GetIntParam floatToIntImpl params "timeout_seconds" false
             (DefaultTimeoutSeconds cfg)) in
      match common.ValidateCommand validator command args with
      | Some err => Some (None, Some err)
      | None =>
          match RunSync cfg environ run command args cwd env timeout with
          | None => None
          | Some result => Some (mcp.JSONResult marshalResult result)
          end
      end
  end.

(** [handleRunCommandAsync]; [id], [now] and [startErr] are what [RunAsync]
    takes from outside. *)
Definition handleRunCommandAsync (id : string) (now : Time)
    (startErr : option error) (params : gmap string Value) (e : Executor)
    : (option mcp.ToolResult * option error) * Executor :=
  match mcp.GetStringParam params "command" true with
  | mcp.Err err => ((None, Some err), e)
  | mcp.Ok command =>
      let args :=
        mcp.valueOrZero [] (mcp.GetStringArrayParam params "args" false) in
      let cwd := mcp.valueOrZero "" (mcp.GetStringParam params "cwd" false) in
      let env := mcp.valueOrZero ∅ (mcp.GetMapParam params "env" false) in
      match common.ValidateCommand validator command args with
      | Some err => ((None, Some err), e)
      | None =>
          match RunAsync e environ id now startErr command args cwd env with
          | ((_, Some err), e') => ((None, Some err), e')
          | ((commandID, None), e') =>
              (mcp.JSONResult marshalSpawned commandID, e')
          end
      end
  end.

(** The helper for an optional parameter of [run_command] reports an
    error. *)
Definition mistyped (params : gmap string Value) (key : string) : Prop :=
  (key = "args"
   /\ mcp.isErr (mcp.GetStringArrayParam params "args" false) = true)
  \/ (key = "cwd" /\ mcp.isErr (mcp.GetStringParam params "cwd" false) = true)
  \/ (key = "env" /\ mcp.isErr (mcp.GetMapParam params "env" false) = true)
  \/ (key = "timeout_seconds"
      /\ mcp.isErr (mcp.GetIntParam floatToIntImpl params "timeout_seconds"
                      false (DefaultTimeoutSeconds cfg)) = true).

End RunTools.

(** *** Further invariants of the interleaved system *)

(** How many cancel requests were accepted. *)
Definition accepted (cans : list bool) : nat :=
  List.count_occ Bool.bool_dec cans true.

(** A cancel request has seen "running" and not returned yet. *)
Definition cancelling (h : HandlerPC) : Prop :=
  match h with
  | HCancelCall | HCancelStore => True
  | _ => False
  end.

Definition watcherDone (pc : WatcherPC) : Prop :=
  match pc with
  | WDone _ => True
  | _ => False
  end.

(** A task is cancelled at most once, and a finished watcher leaves no
    running task. *)
Record CancelInv (c : Config) : Prop :=
  { cinv_running :
      AsyncCommand.Status (task c) = "running" -> accepted (cancels c) = 0%nat;
    cinv_cancelling :
      cancelling (handler c) -> accepted (cancels c) = 0%nat;
    cinv_once : (accepted (cancels c) <= 1)%nat;
    cinv_done :
      watcherDone (watcher c) -> AsyncCommand.Status (task c) <> "running" }.

(** What a status request in flight has read agrees with the record [t]. *)
Definition readsFrom (t : AsyncCommand.t) (p : Pending) : Prop :=
  (forall x, p_status p = Some x -> x = AsyncCommand.Status t)
  /\ (forall x, p_exit_code p = Some x -> x = AsyncCommand.ExitCode t)
  /\ (forall x, p_stdout p = Some x -> x = AsyncCommand.Stdout t)
  /\ (forall x, p_stderr p = Some x -> x = AsyncCommand.Stderr t).

(** The system [c'] as it can be found after the settled system [c] (watcher
    finished, no request in flight, task not running): the same record, and
    nothing but equal snapshots and refused cancels added. *)
Record SettledFrom (c c' : Config) : Prop :=
  { settled_task : task c' = task c;
    settled_watcher : watcher c' = watcher c;
    settled_handler :
      match handler c' with
      | HIdle => True
      | HStatus p => readsFrom (task c) p
      | _ => False
      end;
    settled_snapshots :
      exists new, snapshots c' = (new ++ snapshots c)%list
                  /\ Forall (λ r, r = statusOf (task c)) new;
    settled_cancels :
      exists new, cancels c' = (new ++ cancels c)%list
                  /\ Forall (λ b, b = false) new }.

(** The system [c'] as it can be found any time after [c]: the same id,
    command and start time, and output buffers that have only grown, and not
    at all once [cmd.Wait()] had returned in [c]. *)
Record Grows (c c' : Config) : Prop :=
  { grows_id : AsyncCommand.ID (task c') = AsyncCommand.ID (task c);
    grows_cmd : AsyncCommand.Cmd (task c') = AsyncCommand.Cmd (task c);
    grows_start :
      AsyncCommand.StartTime (task c') = AsyncCommand.StartTime (task c);
    grows_stdout :
      exists more,
        AsyncCommand.Stdout (task c') = AsyncCommand.Stdout (task c) +:+ more;
    grows_stderr :
      exists more,
        AsyncCommand.Stderr (task c') = AsyncCommand.Stderr (task c) +:+ more;
    grows_waited :
      watcher c <> WWait ->
      watcher c' <> WWait
      /\ AsyncCommand.Stdout (task c') = AsyncCommand.Stdout (task c)
      /\ AsyncCommand.Stderr (task c') = AsyncCommand.Stderr (task c) }.

End command.

(** ** Fixtures: concrete configurations, servers and schedules *)

Module fixtures.
Import mcp command.

Definition defaultConfig : CommandConfig :=
  {| DefaultShell := "/bin/bash";
     DefaultTimeoutSeconds := 300;
     MaxOutputSizeBytes := 10485760;
     WorkingDirectory := "" |}.

Definition smallCeiling : CommandConfig :=
  {| DefaultShell := "/bin/bash";
     DefaultTimeoutSeconds := 300;
     MaxOutputSizeBytes := 4;
     WorkingDirectory := "" |}.

(** A run that wrote to both streams and ended with a non-exit error after
    its deadline. *)
Definition lateOutcome : RunOutcome :=
  {| ran_stdout := "0123456789";
     ran_stderr := "warning: slow";
     ran_err := Some (OtherError "context deadline exceeded");
     ran_ctxErr := Some DeadlineExceeded;
     ran_duration := 1000000000 |}.

(** The executor after [sleep 10] has been spawned as task [t1] and then
    cancelled. *)
Definition cancelledSleep : bool * Executor :=
  CancelCommand
    (RunAsync (NewExecutor defaultConfig) [] "t1" 1000000000 None
       "sleep" ["10"] "" ∅).2
    "t1".

Definition sleepCmd : Cmd :=
  newCmd defaultConfig [] "sleep" ["2"] "" ∅.

(** A task that is cancelled, whose killed process the watcher then sees. *)
Definition cancelThenKilled : list Event :=
  [ EvCancel; EvCancelNext; EvCancelNext;
    EvWaitReturns (Some (ExitError (-1)));
    EvWatcher 3000000000; EvWatcher 3000000000; EvWatcher 3000000000 ].

(** A task whose process exits with status 3, two seconds after its start;
    a status request is served after the watcher has assigned [EndTime] and
    [ExitCode] and before it assigns [Status]. The request reads the fields
    in the order of the map literal. *)
Definition queryDuringTransition : list Event :=
  [ EvWaitReturns (Some (ExitError 3));
    EvWatcher 3000000000; EvWatcher 3000000000;
    EvQuery;
    EvReadStatus; EvReadExitCode; EvReadStdout; EvReadStderr;
    EvReadEndTime;
    EvWatcher 3000000000 ].

(** The record of task [t1] as [RunAsync] stores it, and as the watcher
    leaves it after that exit. *)
Definition freshTask : AsyncCommand.t :=
  newAsyncCommand "t1" sleepCmd 1000000000.

Definition exitedTask : AsyncCommand.t :=
  watcherFinish 3000000000 (Some (ExitError 3)) freshTask.

(** A stand-in for the JSON codec: a frame decodes to a [tools/call] request
    when it starts with a brace (its text is kept as the raw parameters), the
    raw parameters name the tool without arguments after the brace, and a
    response is encoded by its kind. *)
Definition demoUnmarshalRequest (line : string) : Result Request :=
  match line with
  | String "{"%char rest =>
      Ok {| JSONRPC := "2.0";
            ID := VFloat64 (S754_finite false 1 0);
            Method := "tools/call";
            Params := rest |}
  | _ => Err "invalid character"
  end.

Definition demoUnmarshalCallParams (raw : string)
    : Result (string * gmap string Value) :=
  Ok (raw, ∅).

Definition demoMarshal (resp : Response) : option string :=
  Some match resp_Error resp, resp_Result resp with
       | Some e, _ => Message e
       | None, Some (PToolResult (Some tr)) =>
           if IsError tr then "tool error" else "tool result"
       | None, Some (PTools l) =>
           "tools: " +:+ String.concat "," (info_name <$> l)
       | None, _ => "result"
       end.

Definition demoMarshalIndent (r : StatusResult) : Result string :=
  Ok (status r).

(** The command server: the status and cancel tools over an executor. *)
Definition commandServer : Server Executor :=
  RegisterTool Executor
    (RegisterTool Executor (NewServer Executor "command" "1.0.0")
       (getCommandStatusTool demoMarshalIndent))
    cancelCommandTool.

Definition callRequest (tool : string) : Request :=
  {| JSONRPC := "2.0";
     ID := VFloat64 (S754_finite false 1 0);
     Method := "tools/call";
     Params := tool |}.

(** Two frames of garbage between empty frames. *)
Definition noisyFrames : list string := [""; "garbage"; ""; "more garbage"].

(** Two tools called [echo]. *)
Definition echoTool (answer : string) : Tool unit :=
  {| Name := "echo";
     Description := "Echo back the input";
     InputSchema :=
       BuildInputSchema {[ "message" := StringProperty "Message to echo" ]}
         ["message"];
     Handler := fun _ w => ((Some (TextResult answer), None), w) |}.

(** A decoder of call parameters that refuses absent parameters, as
    [json.Unmarshal] refuses an empty message. *)
Definition strictUnmarshalCallParams (raw : string)
    : Result (string * gmap string Value) :=
  if String.eqb raw "" then Err "unexpected end of JSON input"
  else Ok (raw, ∅).

Definition methodRequest (method : string) : Request :=
  {| JSONRPC := "2.0";
     ID := VFloat64 (S754_finite false 7 0);
     Method := method;
     Params := "" |}.

(** A tool of the given name that answers with its name. *)
Definition namedTool (n : string) : Tool unit :=
  {| Name := n;
     Description := "";
     InputSchema := BuildInputSchema ∅ [];
     Handler := fun _ w => ((Some (TextResult n), None), w) |}.

(** A context that is found done from iteration [n] on. *)
Definition doneFrom (n : nat) : nat -> bool := fun i => (n <=? i)%nat.

(** Three registered names. *)
Definition threeTools : Server unit :=
  RegisterTool unit
    (RegisterTool unit
       (RegisterTool unit (NewServer unit "test-server" "1.0.0")
          (namedTool "read_file"))
       (namedTool "write_file"))
    (namedTool "list_directory").

(** The validator of the default configuration. *)
Definition defaultValidator : common.CommandValidator :=
  common.NewCommandValidator [] ["rm -rf /"; "sudo"].

Definition demoMarshalResult (r : CommandResult.t) : Result string :=
  Ok (CommandResult.Stdout r).

Definition demoMarshalSpawned (id : string) : Result string := Ok id.

(** An operating system on which every command prints its path and exits
    with status 1. *)
Definition failingRun (cmd : Cmd) (timeoutSeconds : Z) : RunOutcome :=
  {| ran_stdout := Path cmd;
     ran_stderr := "";
     ran_err := Some (ExitError 1);
     ran_ctxErr := None;
     ran_duration := 5000000 |}.

(** The result of the late run under the small ceiling. *)
Definition lateResult : CommandResult.t :=
  {| CommandResult.ExitCode := -1;
     CommandResult.Stdout := "0123" +:+ truncationMarker;
     CommandResult.Stderr := "comm" +:+ truncationMarker;
     CommandResult.DurationMs := 1000;
     CommandResult.CommandID := "" |}.

(** The executor with [sleep 10] running as task [t1]. *)
Definition runningSleep : Executor :=
  (RunAsync (NewExecutor defaultConfig) [] "t1" 1000000000 None
     "sleep" ["10"] "" ∅).2.

(** The system a schedule leads to from the spawn of task [t1]. *)
Definition after (evs : list Event) : Config :=
  default (spawned "t1" sleepCmd 1000000000)
    (exec evs (spawned "t1" sleepCmd 1000000000)).

Definition cleanExit : list Event :=
  [ EvStdout "done";
    EvWaitReturns None;
    EvWatcher 3000000000; EvWatcher 3000000000; EvWatcher 3000000000 ].

Definition query : list Event :=
  [ EvQuery; EvReadExitCode; EvReadStatus; EvReadStderr; EvReadStdout;
    EvReadEndTime ].

End fixtures.

(** * Properties *)

(** ** Parameter extraction *)

Module mcp_facts.
Import mcp.

(** [truncFloat64] rounds towards zero: the result has the sign of the
    datum and is the largest magnitude not above it. For a datum
    [(-1)^s * m * 2^e] with [e < 0] this reads
    [|z| * 2^(-e) <= m < (|z| + 1) * 2^(-e)]. *)
Lemma truncFloat64_toward_zero (s : bool) (m : positive) (e z : Z) :
  e < 0 ->
  truncFloat64 (S754_finite s m e) = Some z ->
  Z.abs z * 2 ^ (- e) <= Z.pos m < (Z.abs z + 1) * 2 ^ (- e)
  /\ (if s then z <= 0 else 0 <= z).
Proof.
  intros He H. unfold truncFloat64 in H.
  destruct (Z.leb_spec 0 e) as [Hle | _]; [lia |].
  injection H as <-.
  assert (Hd : 0 < 2 ^ (- e)) by (apply Z.pow_pos_nonneg; lia).
  set (d := 2 ^ (- e)) in *.
  destruct s.
  - replace (Z.neg m) with (- Z.pos m) by reflexivity.
    rewrite Z.quot_opp_l by lia. rewrite Z.abs_opp.
    rewrite Z.quot_div_nonneg by lia.
    pose proof (Z.div_pos (Z.pos m) d ltac:(lia) Hd) as Hq.
    rewrite Z.abs_eq by exact Hq.
    pose proof (Z.mul_div_le (Z.pos m) d Hd).
    pose proof (Z.mul_succ_div_gt (Z.pos m) d Hd).
    split; [split; lia | lia].
  - rewrite Z.quot_div_nonneg by lia.
    pose proof (Z.div_pos (Z.pos m) d ltac:(lia) Hd) as Hq.
    rewrite Z.abs_eq by exact Hq.
    pose proof (Z.mul_div_le (Z.pos m) d Hd).
    pose proof (Z.mul_succ_div_gt (Z.pos m) d Hd).
    split; [split; lia | lia].
Qed.

(** A datum without fraction is its own truncation. *)
Lemma truncFloat64_integral (s : bool) (m : positive) (e : Z) :
  0 <= e ->
  truncFloat64 (S754_finite s m e)
  = Some ((if s then Z.neg m else Z.pos m) * 2 ^ e).
Proof.
  intros He. unfold truncFloat64.
  destruct (Z.leb_spec 0 e); [reflexivity | lia].
Qed.

(** 2.75 and -2.75 lose their fraction. *)
Example truncFloat64_2_75 :
  truncFloat64 (S754_finite false 11 (-2)) = Some 2
  /\ truncFloat64 (S754_finite true 11 (-2)) = Some (-2).
Proof. split; reflexivity. Qed.

(** An [int64] fits [int]: the conversion changes nothing. *)
Lemma wrapInt_inInt (n : Z) : inInt n = true -> wrapInt n = n.
Proof.
  unfold inInt, wrapInt, minInt, maxInt, intSize. intros H.
  apply andb_true_iff in H as [H1 H2].
  apply Z.leb_le in H1, H2.
  change (2 ^ (64 - 1)) with 9223372036854775808 in *.
  change (2 ^ 64) with 18446744073709551616.
  rewrite Z.mod_small by lia. lia.
Qed.

Lemma intOfFloat64_trunc (impl : float64 -> Z) (f : float64) (z : Z) :
  truncFloat64 f = Some z -> inInt z = true -> intOfFloat64 impl f = z.
Proof. intros Ht Hr. unfold intOfFloat64. rewrite Ht, Hr. reflexivity. Qed.

(** C10. [GetIntParam] accepts a value of type float64, int or int64 without
    error: a float64 is converted by truncation towards zero (whenever the
    truncated value is an [int], a fractional number is cut, not rejected),
    an int is returned as it is, an int64 is converted to [int] (unchanged,
    since it fits). A present value yields an error exactly when its type is
    none of the three, and the error is "parameter <key> must be an integer".
    An absent key yields the caller's default when the parameter is not
    required and the "missing required parameter" error when it is. *)
Theorem GetIntParam_numeric_conversion
    (impl : float64 -> Z) (params : gmap string Value) (key : string)
    (required : bool) (defaultValue : Z) :
  (forall f z, params !! key = Some (VFloat64 f) ->
     truncFloat64 f = Some z -> inInt z = true ->
     GetIntParam impl params key required defaultValue = Ok z)
  /\ (forall n, params !! key = Some (VInt n) ->
        GetIntParam impl params key required defaultValue = Ok n)
  /\ (forall n, params !! key = Some (VInt64 n) -> inInt n = true ->
        GetIntParam impl params key required defaultValue = Ok n)
  /\ (forall v, params !! key = Some v ->
        isErr (GetIntParam impl params key required defaultValue)
        = negb (numeric v))
  /\ (forall v, params !! key = Some v -> numeric v = false ->
        GetIntParam impl params key required defaultValue
        = Err ("parameter " +:+ key +:+ " must be an integer"))
  /\ (params !! key = None -> required = false ->
        GetIntParam impl params key required defaultValue = Ok defaultValue)
  /\ (params !! key = None -> required = true ->
        GetIntParam impl params key required defaultValue
        = Err ("missing required parameter: " +:+ key)).
Proof.
  unfold GetIntParam. repeat split.
  - intros f z -> Ht Hr. f_equal. by apply intOfFloat64_trunc.
  - by intros n ->.
  - intros n -> Hr. f_equal. by apply wrapInt_inInt.
  - intros v ->. by destruct v.
  - intros v -> Hv. by destruct v.
  - by intros -> ->.
  - by intros -> ->.
Qed.

(** The fractional timeout 2.75 is read as 2. *)
Lemma GetIntParam_numeric_conversion_witness :
  GetIntParam (fun _ => minInt)
    {[ "timeout_seconds" := VFloat64 (S754_finite false 11 (-2)) ]}
    "timeout_seconds" false 30 = Ok 2.
Proof.
  apply (proj1 (GetIntParam_numeric_conversion (fun _ => minInt)
                  {[ "timeout_seconds" := VFloat64 (S754_finite false 11 (-2)) ]}
                  "timeout_seconds" false 30)
           (S754_finite false 11 (-2)) 2);
    reflexivity.
Defined.

(** ** The tool registry *)

Section Registry.

Context {World : Type}.
Variable unmarshalCallParams : string -> Result (string * gmap string Value).
Variable marshal : Response -> option string.

Lemma NewServer_keyedByName (n v : string) :
  keyedByName World (NewServer World n v).
Proof. intros k t H. simpl in H. by rewrite lookup_empty in H. Qed.

Lemma RegisterTool_keyedByName (s : Server World) (tool : Tool World) :
  keyedByName World s -> keyedByName World (RegisterTool World s tool).
Proof.
  intros Hs k t. simpl. rewrite lookup_insert.
  case_decide as Hk.
  - intros [= <-]. exact Hk.
  - apply Hs.
Qed.

Lemma entriesNamed_none (n : string) (l : list (string * Tool World)) :
  Forall (λ kv, Name World kv.2 ≠ n) l ->
  entriesNamed n ((λ kv, toolInfo World kv.2) <$> l) = [].
Proof.
  unfold entriesNamed. induction 1 as [| kv l Hkv _ IH]; [reflexivity |].
  rewrite fmap_cons, filter_cons_False; [exact IH | exact Hkv].
Qed.

Lemma entriesNamed_absent (n : string) (m : gmap string (Tool World)) :
  (forall k t, m !! k = Some t -> Name World t = k) ->
  m !! n = None ->
  entriesNamed n ((λ kv, toolInfo World kv.2) <$> map_to_list m) = [].
Proof.
  intros Hkey Hn. apply entriesNamed_none, Forall_forall.
  intros [k t] Hin. apply elem_of_map_to_list in Hin. simpl.
  rewrite (Hkey k t Hin). intros ->. congruence.
Qed.

(** The name a tool is registered under appears once in [tools/list]. *)
Lemma listTools_registered (s : Server World) (tool : Tool World) :
  keyedByName World s ->
  entriesNamed (Name World tool) (listTools World (RegisterTool World s tool))
  = [toolInfo World tool].
Proof.
  intros Hs. unfold listTools. simpl.
  rewrite <- insert_delete_eq.
  apply Permutation_singleton_r.
  unfold entriesNamed.
  rewrite map_to_list_insert by apply lookup_delete_eq.
  rewrite fmap_cons, filter_cons_True by reflexivity.
  simpl. fold (entriesNamed (Name World tool)
                 ((λ kv, toolInfo World kv.2)
                    <$> map_to_list (delete (Name World tool) (tools World s)))).
  rewrite entriesNamed_absent; [reflexivity | | apply lookup_delete_eq].
  intros k t Hk. apply lookup_delete_Some in Hk as [_ Hk]. by apply Hs.
Qed.

Lemma handleToolsCall_registered (s : Server World) (req : Request)
    (w : World) (n : string) (args : gmap string Value) (tool : Tool World) :
  unmarshalCallParams (Params req) = Ok (n, args) ->
  tools World s !! n = Some tool ->
  handleToolsCall World unmarshalCallParams marshal s req w
  = callAnswer World marshal tool (ID req) args w.
Proof.
  intros Hp Ht. unfold handleToolsCall, callAnswer. rewrite Hp, Ht.
  by destruct (Handler World tool args w) as [[r [err |]] w'].
Qed.

(** C9. Registering two tools of one name never fails and leaves the later
    one alone in the registry: the lookup of the name yields the second tool,
    the registry is what registering the second tool alone would give (as
    many entries as after the first registration), [tools/list] carries one
    entry of that name, the second tool's, and [tools/call] runs the second
    tool's handler. The last two are also stated of the requests themselves:
    a [tools/list] request is answered by the result response whose list has
    exactly one entry of that name, with the second tool's name, description
    and schema, and a [tools/call] request naming it is answered by what the
    second tool's handler returns. *)
Theorem RegisterTool_same_name_replaces
    (s : Server World) (t1 t2 : Tool World) :
  keyedByName World s ->
  Name World t1 = Name World t2 ->
  let s' := RegisterTool World (RegisterTool World s t1) t2 in
  tools World s' !! Name World t2 = Some t2
  /\ tools World s' = tools World (RegisterTool World s t2)
  /\ size (tools World s') = size (tools World (RegisterTool World s t1))
  /\ entriesNamed (Name World t2) (listTools World s') = [toolInfo World t2]
  /\ (forall req w args,
        unmarshalCallParams (Params req) = Ok (Name World t2, args) ->
        handleToolsCall World unmarshalCallParams marshal s' req w
        = callAnswer World marshal t2 (ID req) args w)
  /\ (forall req w,
        Method req = "tools/list" ->
        exists l i,
          handleRequest World unmarshalCallParams marshal s' req w
          = (match marshal {| resp_JSONRPC := "2.0";
                              resp_ID := ID req;
                              resp_Result := Some (PTools l);
                              resp_Error := None |} with
             | Some line => [line]
             | None => []
             end, w)
          /\ filter (λ j, info_name j = Name World t2) l = [i]
          /\ info_name i = Name World t2
          /\ info_description i = Description World t2
          /\ info_inputSchema i = InputSchema World t2)
  /\ (forall req w args,
        Method req = "tools/call" ->
        unmarshalCallParams (Params req) = Ok (Name World t2, args) ->
        handleRequest World unmarshalCallParams marshal s' req w
        = match Handler World t2 args w with
          | ((_, Some err), w') =>
              (send marshal
                 (resultResponse (ID req)
                    (PToolResult (Some (ErrorResult err)))), w')
          | ((result, None), w') =>
              (send marshal
                 (resultResponse (ID req) (PToolResult result)), w')
          end).
Proof.
  intros Hs Hn s'.
  assert (Hlook : tools World s' !! Name World t2 = Some t2)
    by (simpl; apply lookup_insert_eq).
  assert (Htools : tools World s' = tools World (RegisterTool World s t2))
    by (simpl; rewrite Hn; apply insert_insert_eq).
  repeat split.
  - exact Hlook.
  - exact Htools.
  - rewrite Htools. simpl. rewrite Hn.
    destruct (tools World s !! Name World t2) as [t |] eqn:E.
    + rewrite !map_size_insert_Some; eauto.
    + by rewrite !map_size_insert_None.
  - apply listTools_registered. by apply RegisterTool_keyedByName.
  - intros req w args Hp. by apply handleToolsCall_registered with (n := Name World t2).
  - intros req w Hm. exists (listTools World s'), (toolInfo World t2).
    split; [| split; [| by repeat split]].
    + unfold handleRequest. rewrite Hm. reflexivity.
    + apply listTools_registered. by apply RegisterTool_keyedByName.
  - intros req w args Hm Hp. unfold handleRequest. rewrite Hm. simpl.
    rewrite (handleToolsCall_registered s' req w (Name World t2) args t2 Hp Hlook).
    reflexivity.
Qed.

End Registry.

(** ** Dispatch *)

Section Dispatch.

Context {World : Type}.
Variable unmarshalRequest : string -> Result Request.
Variable unmarshalCallParams : string -> Result (string * gmap string Value).
Variable marshal : Response -> option string.

Lemma handleRequest_call (s : Server World) (req : Request) (w : World) :
  Method req = "tools/call" ->
  handleRequest World unmarshalCallParams marshal s req w
  = handleToolsCall World unmarshalCallParams marshal s req w.
Proof. intros Hm. unfold handleRequest. by rewrite Hm. Qed.

(** C6. A [tools/call] request whose tool is registered and whose handler
    returns an error is answered by one result response, never by an error
    envelope: the response has a result and no error member, and the result
    is a tool result flagged [isError] whose one text block is the handler's
    error message. *)
Theorem handler_error_is_flagged_result
    (s : Server World) (req : Request) (w w' : World) (n : string)
    (args : gmap string Value) (tool : Tool World)
    (r : option ToolResult) (err : error) (line : string) :
  Method req = "tools/call" ->
  unmarshalCallParams (Params req) = Ok (n, args) ->
  tools World s !! n = Some tool ->
  Handler World tool args w = ((r, Some err), w') ->
  let resp := resultResponse (ID req) (PToolResult (Some (ErrorResult err))) in
  marshal resp = Some line ->
  handleRequest World unmarshalCallParams marshal s req w = ([line], w')
  /\ resp_Error resp = None
  /\ resp_ID resp = ID req
  /\ exists tr, resp_Result resp = Some (PToolResult (Some tr))
       /\ IsError tr = true
       /\ Content tr = [ {| Type_ := "text"; Text := err |} ].
Proof.
  intros Hm Hp Ht Hh resp Hl. split; [| split; [| split]].
  - rewrite handleRequest_call by exact Hm.
    unfold handleToolsCall. rewrite Hp, Ht, Hh.
    unfold sendResult, send. fold resp. by rewrite Hl.
  - reflexivity.
  - reflexivity.
  - exists (ErrorResult err). by repeat split.
Qed.

(** C7. A [tools/call] request naming a tool that is not registered is
    answered by one error envelope with code -32602 (invalid params), message
    "Unknown tool" and the name as data; no handler runs (the world is left as
    it was) and the dispatch function returns. *)
Theorem unknown_tool_is_protocol_error
    (s : Server World) (req : Request) (w : World) (n : string)
    (args : gmap string Value) (line : string) :
  Method req = "tools/call" ->
  unmarshalCallParams (Params req) = Ok (n, args) ->
  tools World s !! n = None ->
  let resp := errorResponse (ID req) (-32602) "Unknown tool" n in
  marshal resp = Some line ->
  handleRequest World unmarshalCallParams marshal s req w = ([line], w)
  /\ resp_Result resp = None
  /\ resp_ID resp = ID req
  /\ resp_Error resp
     = Some {| Code := -32602; Message := "Unknown tool"; Data := n |}.
Proof.
  intros Hm Hp Ht resp Hl. split; [| by repeat split].
  rewrite handleRequest_call by exact Hm.
  unfold handleToolsCall. rewrite Hp, Ht.
  unfold sendError, send. fold resp. by rewrite Hl.
Qed.

(** *** The read loop *)

#[local] Abbreviation runFrom' := (runFrom World unmarshalRequest unmarshalCallParams marshal).
#[local] Abbreviation Run' := (Run World unmarshalRequest unmarshalCallParams marshal).

Section Live.

Variable s : Server World.
Variable ctxDone : nat -> bool.
Hypothesis ctx_live : forall i, ctxDone i = false.

(** With a live context the iteration count plays no role. *)
Lemma runFrom_index (scanErr : option error) (frames : list string) :
  forall i j w,
    runFrom' s ctxDone scanErr i frames w
    = runFrom' s ctxDone scanErr j frames w.
Proof.
  induction frames as [| line rest IH]; intros i j w; simpl; [reflexivity |].
  rewrite !ctx_live.
  destruct (String.length line =? 0)%nat; [apply IH |].
  destruct (unmarshalRequest line) as [req | e].
  - destruct (handleRequest World unmarshalCallParams marshal s req w)
      as [out w'].
    by rewrite (IH (S i) (S j) w').
  - by rewrite (IH (S i) (S j) w).
Qed.

(** The loop over a sequence of frames is the loop over its first part
    followed by the loop over the rest. *)
Lemma Run_app (scanErr : option error) (pre post : list string) (w : World) :
  let r1 := Run' s ctxDone None pre w in
  let r2 := Run' s ctxDone scanErr post (run_world World r1) in
  Run' s ctxDone scanErr (pre ++ post) w
  = {| run_err := run_err World r2;
       run_output := run_output World r1 ++ run_output World r2;
       run_world := run_world World r2 |}.
Proof.
  unfold Run. revert w.
  induction pre as [| line rest IH]; intros w; simpl.
  - by destruct (runFrom' s ctxDone scanErr 0 post w).
  - rewrite !ctx_live.
    destruct (String.length line =? 0)%nat.
    + rewrite (runFrom_index scanErr (rest ++ post) 1 0).
      rewrite (runFrom_index None rest 1 0). apply IH.
    + destruct (unmarshalRequest line) as [req | e].
      * destruct (handleRequest World unmarshalCallParams marshal s req w)
          as [out w'].
        rewrite (runFrom_index scanErr (rest ++ post) 1 0).
        rewrite (runFrom_index None rest 1 0). rewrite IH. simpl.
        by rewrite app_assoc.
      * rewrite (runFrom_index scanErr (rest ++ post) 1 0).
        rewrite (runFrom_index None rest 1 0). rewrite IH. simpl.
        by rewrite app_assoc.
Qed.

Lemma Run_err (scanErr : option error) (frames : list string) (w : World) :
  run_err World (Run' s ctxDone scanErr frames w) = scanErr.
Proof.
  unfold Run. generalize 0%nat. revert w.
  induction frames as [| line rest IH]; intros w i; simpl; [reflexivity |].
  rewrite ctx_live.
  destruct (String.length line =? 0)%nat; [apply IH |].
  destruct (unmarshalRequest line) as [req | e]; [| apply IH].
  destruct (handleRequest World unmarshalCallParams marshal s req w)
    as [out w'].
  apply IH.
Qed.

End Live.

(** C5. While the context is live, for every sequence of frames: the loop
    returns no error at end of input; an empty frame, wherever it stands,
    changes nothing (the run is the run without it); and a frame that does
    not parse adds exactly one line, the parse-error response with code
    -32700, between what the frames before it and the frames after it produce,
    the frames after it being processed as if it had not been there. *)
Theorem Run_skips_empty_reports_malformed
    (s : Server World) (ctxDone : nat -> bool) (frames : list string)
    (w : World) :
  (forall i, ctxDone i = false) ->
  run_err World (Run' s ctxDone None frames w) = None
  /\ (forall pre post, frames = (pre ++ "" :: post)%list ->
        Run' s ctxDone None frames w
        = Run' s ctxDone None (pre ++ post)%list w)
  /\ (forall pre f post e line,
        frames = (pre ++ f :: post)%list ->
        f <> "" ->
        unmarshalRequest f = Err e ->
        marshal (errorResponse VNil (-32700) "Parse error" e) = Some line ->
        let r1 := Run' s ctxDone None pre w in
        let r2 := Run' s ctxDone None post (run_world World r1) in
        run_output World (Run' s ctxDone None frames w)
        = (run_output World r1 ++ line :: run_output World r2)%list
        /\ run_world World (Run' s ctxDone None frames w)
           = run_world World r2).
Proof.
  intros Hctx. split; [by apply Run_err | split].
  - intros pre post ->.
    rewrite !(Run_app s ctxDone Hctx). f_equal.
    + unfold Run at 1. simpl. rewrite Hctx.
      by rewrite (runFrom_index s ctxDone Hctx None post 1 0).
    + f_equal. unfold Run at 1. simpl. rewrite Hctx.
      by rewrite (runFrom_index s ctxDone Hctx None post 1 0).
    + unfold Run at 1. simpl. rewrite Hctx.
      by rewrite (runFrom_index s ctxDone Hctx None post 1 0).
  - intros pre f post e line -> Hf He Hl r1 r2.
    rewrite (Run_app s ctxDone Hctx). simpl.
    assert (Hlen : (String.length f =? 0)%nat = false).
    { destruct f; [done | reflexivity]. }
    unfold Run at 2 4. simpl. rewrite Hctx, Hlen, He. simpl.
    rewrite (runFrom_index s ctxDone Hctx None post 1 0).
    unfold sendError, send. rewrite Hl. simpl. split; reflexivity.
Qed.

End Dispatch.

End mcp_facts.

(** ** Synchronous runs *)

Module command_facts.
Import command fixtures.

Lemma length_append (s1 s2 : string) :
  String.length (s1 +:+ s2) = (String.length s1 + String.length s2)%nat.
Proof. induction s1 as [| c s1 IH]; simpl; [reflexivity | by rewrite IH]. Qed.

Lemma length_substring_prefix (n : nat) (s : string) :
  (n <= String.length s)%nat -> String.length (String.substring 0 n s) = n.
Proof.
  revert s. induction n as [| n IH]; intros [| c s] H; simpl in *;
    try reflexivity; try lia.
  rewrite IH; [reflexivity | lia].
Qed.

Lemma substring_all (s : string) : String.substring 0 (String.length s) s = s.
Proof. induction s as [| c s IH]; simpl; [reflexivity | by rewrite IH]. Qed.

(** [substring 0 n s] is the first [n] bytes of [s]. *)
Lemma substring_prefix (n : nat) (s : string) :
  (n <= String.length s)%nat ->
  s = String.substring 0 n s
      +:+ String.substring n (String.length s - n) s.
Proof.
  revert s. induction n as [| n IH]; intros s H.
  - rewrite Nat.sub_0_r, substring_all. by destruct s.
  - destruct s as [| c s]; simpl in *; [lia |].
    change (String c s
            = String c (String.substring 0 n s
                        +:+ String.substring n (String.length s - n) s)).
    f_equal. apply IH. lia.
Qed.

Lemma truncateOutput_truncatedTo (max : Z) (s : string) :
  0 <= max ->
  exists result, truncateOutput max s = Some result /\ truncatedTo max s result.
Proof.
  intros Hmax. unfold truncateOutput.
  destruct (Z.gtb_spec (Z.of_nat (String.length s)) max) as [Hgt | Hle].
  - destruct (Z.ltb_spec max 0) as [Hneg | _]; [lia |].
    eexists. split; [reflexivity |]. split; [lia |].
    intros _. split; [reflexivity |].
    rewrite length_append, length_substring_prefix by lia. lia.
  - exists s. split; [reflexivity |]. split; [done | lia].
Qed.

(** C4, as amended. With a non-negative ceiling every synchronous run
    returns a result in which stdout is the captured stdout truncated to the
    ceiling (unchanged at or below it; above it the first ceiling-many bytes
    and one marker), whatever stderr holds. The same holds of stderr and the
    captured stderr when the run ended without error or with an exit error;
    when it failed otherwise, stderr is the error text (the timeout marker or
    the error's message) truncated the same way. *)
Theorem RunSync_truncates_each_stream (cfg : CommandConfig) (o : RunOutcome) :
  0 <= MaxOutputSizeBytes cfg ->
  exists r,
    syncResult cfg o = Some r
    /\ truncatedTo (MaxOutputSizeBytes cfg) (ran_stdout o)
         (CommandResult.Stdout r)
    /\ (keepsStderr (ran_err o) = true ->
        truncatedTo (MaxOutputSizeBytes cfg) (ran_stderr o)
          (CommandResult.Stderr r))
    /\ (forall msg, ran_err o = Some (OtherError msg) ->
        truncatedTo (MaxOutputSizeBytes cfg) (errorText msg (ran_ctxErr o))
          (CommandResult.Stderr r)).
Proof.
  intros Hmax. unfold syncResult, truncateResult.
  set (r0 := recordError _ _ _).
  assert (Hout : CommandResult.Stdout r0 = ran_stdout o).
  { unfold r0, recordError. by destruct (ran_err o) as [[code | msg] |]. }
  destruct (truncateOutput_truncatedTo (MaxOutputSizeBytes cfg)
              (CommandResult.Stdout r0) Hmax) as (out & -> & Ho).
  destruct (truncateOutput_truncatedTo (MaxOutputSizeBytes cfg)
              (CommandResult.Stderr r0) Hmax) as (err & -> & He).
  eexists. split; [reflexivity |]. simpl.
  split; [by rewrite <- Hout | split].
  - intros Hk. replace (ran_stderr o) with (CommandResult.Stderr r0);
      [exact He |].
    unfold r0, recordError. by destruct (ran_err o) as [[code | msg] |].
  - intros msg Hm.
    replace (errorText msg (ran_ctxErr o)) with (CommandResult.Stderr r0);
      [exact He |].
    unfold r0, recordError. rewrite Hm. reflexivity.
Qed.

Lemma RunSync_truncates_each_stream_witness :
  exists r,
    syncResult smallCeiling lateOutcome = Some r
    /\ truncatedTo 4 "0123456789" (CommandResult.Stdout r)
    /\ (keepsStderr (ran_err lateOutcome) = true ->
        truncatedTo 4 "warning: slow" (CommandResult.Stderr r))
    /\ (forall msg, ran_err lateOutcome = Some (OtherError msg) ->
        truncatedTo 4 (errorText msg (ran_ctxErr lateOutcome))
          (CommandResult.Stderr r)).
Proof.
  apply (RunSync_truncates_each_stream smallCeiling lateOutcome).
  simpl. lia.
Defined.

(** C4 as stated fails for stderr: the captured stderr exceeds the ceiling,
    yet the result's stderr is not its first bytes and the marker, but the
    (truncated) timeout text. *)
Lemma stderr_not_truncated_capture :
  ~ (forall cfg o r,
       0 <= MaxOutputSizeBytes cfg ->
       syncResult cfg o = Some r ->
       truncatedTo (MaxOutputSizeBytes cfg) (ran_stderr o)
         (CommandResult.Stderr r)).
Proof.
  intros H.
  destruct (H smallCeiling lateOutcome
              {| CommandResult.ExitCode := -1;
                 CommandResult.Stdout := "0123" +:+ truncationMarker;
                 CommandResult.Stderr := "comm" +:+ truncationMarker;
                 CommandResult.DurationMs := 1000;
                 CommandResult.CommandID := "" |}
              ltac:(simpl; lia) eq_refl) as [_ Hgt].
  destruct Hgt as [Heq _]; [simpl; lia |].
  discriminate Heq.
Qed.

(** *** Deadlines *)

(** An exit error never puts the timeout text in the result, whatever the
    context says. *)
Lemma exit_error_keeps_stderr (r : CommandResult.t) (code : Z)
    (ctxErr : option CtxError) :
  CommandResult.Stderr (recordError (Some (ExitError code)) ctxErr r)
  = CommandResult.Stderr r.
Proof. reflexivity. Qed.

(** C3 (the code at the failing input). [sleep 10] run with a deadline of one
    second is killed at the deadline; the result has exit code -1 and the
    captured (empty) stderr: the timeout text is not in it. *)
Theorem RunSync_deadline_kill_has_no_marker :
  RunSync defaultConfig [] (fun _ timeout => killedAtDeadline "" "" timeout)
    "sleep" ["10"] "" ∅ 1
  = Some {| CommandResult.ExitCode := -1;
            CommandResult.Stdout := "";
            CommandResult.Stderr := "";
            CommandResult.DurationMs := 1000;
            CommandResult.CommandID := "" |}.
Proof. reflexivity. Qed.

(** ** Asynchronous tasks: the table *)

Section Table.

Variable marshalIndent : StatusResult -> mcp.Result string.

Lemma RunAsync_started (e : Executor) (environ : list string) (id : string)
    (now : Time) (command : string) (args : list string) (cwd : string)
    (env : gmap string string) :
  let r := RunAsync e environ id now None command args cwd env in
  r.1 = (id, None)
  /\ GetStatus r.2 id
     = Some (newAsyncCommand id
               (newCmd (config e) environ command args cwd env) now).
Proof. split; [reflexivity |]. unfold GetStatus. simpl. apply lookup_insert_eq. Qed.

Lemma GetStatus_unknown_handled (e : Executor) (id : string) :
  GetStatus e id = None ->
  handleGetCommandStatus marshalIndent {[ "command_id" := VString id ]} e
  = ((None, Some ("command not found: " +:+ id)), e).
Proof.
  intros H. unfold handleGetCommandStatus, mcp.GetStringParam.
  rewrite lookup_singleton_eq. by rewrite H.
Qed.

Lemma CancelCommand_unknown (e : Executor) (id : string) :
  GetStatus e id = None -> CancelCommand e id = (false, e).
Proof. unfold GetStatus, CancelCommand. by intros ->. Qed.

Lemma CancelCommand_unknown_handled (e : Executor) (id : string) :
  GetStatus e id = None ->
  handleCancelCommand {[ "command_id" := VString id ]} e
  = ((None, Some ("command not found or already completed: " +:+ id)), e).
Proof.
  intros H. unfold handleCancelCommand, mcp.GetStringParam.
  rewrite lookup_singleton_eq. by rewrite (CancelCommand_unknown e id H).
Qed.

(** C8. When the subprocess cannot be started, [RunAsync] returns the start
    error with an empty id and leaves the executor as it was: every status
    and cancel request is answered as before the attempt, and the id the
    attempt drew (fresh, as ids are) is unknown to both [GetStatus] and
    [CancelCommand] and to the two tools built on them. *)
Theorem RunAsync_start_failure_stores_nothing
    (e : Executor) (environ : list string) (id : string) (now : Time)
    (err : error) (command : string) (args : list string) (cwd : string)
    (env : gmap string string) :
  asyncCommands e !! id = None ->
  let r := RunAsync e environ id now (Some err) command args cwd env in
  r.1 = ("", Some err)
  /\ r.2 = e
  /\ (forall id', GetStatus r.2 id' = GetStatus e id')
  /\ (forall id', CancelCommand r.2 id' = CancelCommand e id')
  /\ GetStatus r.2 id = None
  /\ CancelCommand r.2 id = (false, r.2)
  /\ handleGetCommandStatus marshalIndent {[ "command_id" := VString id ]} r.2
     = ((None, Some ("command not found: " +:+ id)), r.2)
  /\ handleCancelCommand {[ "command_id" := VString id ]} r.2
     = ((None, Some ("command not found or already completed: " +:+ id)),
        r.2).
Proof.
  intros Hfresh r. subst r. simpl.
  repeat split; try done.
  - by apply CancelCommand_unknown.
  - by apply GetStatus_unknown_handled.
  - by apply CancelCommand_unknown_handled.
Qed.

End Table.

(** *** Terminal transitions, each in one piece *)

(** [CancelCommand] leaves a task that is not running as it is. *)
Lemma CancelCommand_not_running (e : Executor) (id : string)
    (c : AsyncCommand.t) :
  GetStatus e id = Some c ->
  AsyncCommand.Status c <> "running" ->
  CancelCommand e id = (false, e).
Proof.
  unfold GetStatus, CancelCommand. intros -> Hs.
  destruct (String.eqb_spec (AsyncCommand.Status c) "running"); done.
Qed.

(** A second cancel is refused. *)
Lemma CancelCommand_twice (e : Executor) (id : string) (c : AsyncCommand.t) :
  GetStatus e id = Some c ->
  AsyncCommand.Status c = "running" ->
  let r := CancelCommand e id in
  r.1 = true /\ CancelCommand r.2 id = (false, r.2).
Proof.
  intros Hc Hs r. unfold GetStatus in Hc.
  assert (Hr : r = (true,
                    {| config := config e;
                       asyncCommands :=
                         <[id := AsyncCommand.setStatus "cancelled"
                                   (AsyncCommand.cancel c)]>
                           (asyncCommands e) |})).
  { subst r. unfold CancelCommand. by rewrite Hc, Hs. }
  rewrite Hr. simpl. split; [reflexivity |].
  eapply CancelCommand_not_running.
  - unfold GetStatus. simpl. apply lookup_insert_eq.
  - done.
Qed.

(** In particular a cancel leaves a terminal task as it is. *)
Lemma CancelCommand_terminal (e : Executor) (id : string)
    (c : AsyncCommand.t) :
  GetStatus e id = Some c ->
  terminal (AsyncCommand.Status c) = true ->
  CancelCommand e id = (false, e).
Proof.
  intros Hc Ht. apply (CancelCommand_not_running e id c Hc).
  intros Hr. rewrite Hr in Ht. discriminate Ht.
Qed.

(** A cancel request without a usable [command_id] is a handler error. *)
Lemma handleCancelCommand_bad_argument (params : gmap string Value)
    (e : Executor) :
  (forall s, params !! "command_id" <> Some (VString s)) ->
  exists err, handleCancelCommand params e = ((None, Some err), e).
Proof.
  intros H. unfold handleCancelCommand, mcp.GetStringParam.
  destruct (params !! "command_id") as [[] |] eqn:E; eauto.
  by destruct (H s).
Qed.

(** The watcher writes its verdict whatever the record holds. *)
Lemma watcherFinish_overwrites (now : Time) (err : option ProcError)
    (c : AsyncCommand.t) :
  AsyncCommand.Status (watcherFinish now err c) = watcherStatus err
  /\ AsyncCommand.ExitCode (watcherFinish now err c) = watcherExitCode err
  /\ AsyncCommand.EndTime (watcherFinish now err c) = now.
Proof. by repeat split. Qed.

(** C1 (the code at the failing input). The cancel is accepted and the task
    reads "cancelled"; when the watcher then sees the killed process (an exit
    error with code -1) the task reads "failed" with exit code -1, and had
    the process exited by itself at that instant it would read "completed":
    the watcher's transition is applied to a terminal task. *)
Theorem cancelled_task_overwritten_by_watcher :
  cancelledSleep.1 = true
  /\ AsyncCommand.Status <$> GetStatus cancelledSleep.2 "t1" = Some "cancelled"
  /\ AsyncCommand.Status
       <$> GetStatus
             (watcherExit cancelledSleep.2 "t1" 3000000000
                (Some (ExitError (-1)))) "t1"
     = Some "failed"
  /\ AsyncCommand.ExitCode
       <$> GetStatus
             (watcherExit cancelledSleep.2 "t1" 3000000000
                (Some (ExitError (-1)))) "t1"
     = Some (-1)
  /\ AsyncCommand.Status
       <$> GetStatus (watcherExit cancelledSleep.2 "t1" 3000000000 None) "t1"
     = Some "completed".
Proof. repeat split; vm_compute; reflexivity. Qed.

(** The same in the interleaved system: the cancel request is accepted, and
    the task ends up "failed". *)
Lemma cancelThenKilled_ends_failed :
  (fun c => (cancels c, AsyncCommand.Status (task c),
             AsyncCommand.ExitCode (task c)))
    <$> exec cancelThenKilled (spawned "t1" sleepCmd 1000000000)
  = Some ([true], "failed", -1).
Proof. reflexivity. Qed.

(** ** Asynchronous tasks: status requests against the watcher *)

Lemma Inv_spawned (id : string) (cmd : Cmd) (now : Time) :
  Inv (spawned id cmd now).
Proof. constructor; simpl; try done. Qed.

Lemma watcherStatus_completed (err : option ProcError) :
  watcherStatus err = "completed" -> err = None.
Proof. by destruct err as [[code | msg] |]. Qed.

Lemma watcherExitCode_nonzero (err : option ProcError) :
  watcherExitCode err <> 0 -> exists e, err = Some e.
Proof. destruct err as [e |]; [eauto | done]. Qed.

(** Breaks up the equation [step ev c = Some c']. *)
Ltac inv_step :=
  match goal with
  | H : Some _ = Some _ |- _ => injection H as <-
  | H : None = Some _ |- _ => discriminate H
  | H : context [match ?x with _ => _ end] |- _ =>
      destruct x eqn:?; simpl in H
  end.

(** Feeds the facts at hand to the invariant's implications. *)
Ltac derive :=
  repeat match goal with
  | H : ?a = ?a -> _ |- _ => specialize (H eq_refl)
  | H : ?P -> _, HP : ?P |- _ =>
      match type of P with Prop => specialize (H HP) end
  | H : forall p, ?h = HStatus p -> _, E : ?h = HStatus ?q |- _ =>
      specialize (H q E)
  | H : forall p, HStatus ?q = HStatus p -> _ |- _ => specialize (H q eq_refl)
  | H : forall r, In r ?l -> _, HI : In ?x ?l |- _ => specialize (H x HI)
  | H : forall x, ?o = Some x -> _, E : ?o = Some ?y |- _ => specialize (H y E)
  | H : _ /\ _ |- _ => destruct H
  end.

Lemma step_Inv (ev : Event) (c c' : Config) :
  Inv c -> step ev c = Some c' -> Inv c'.
Proof.
  intros [Hst Hex Hend Hrs Hre Hsn] Hstep.
  destruct c as [t pc h snaps cans]. simpl in *.
  unfold finishedClean in *.
  destruct ev; simpl in Hstep; unfold stepWatcher, stepRead in Hstep;
    simpl in Hstep; repeat inv_step; subst;
    constructor; simpl in *; unfold finishedClean in *.
  all: try done.
  all: try (intros; simplify_eq/=; derive; simplify_eq/=; done).
  all: try (destruct err as [[code | msg] |]; simpl; done).
  intros r [<- | Hin] Hs; [| by apply Hsn].
  simpl in Hs. subst s.
  pose proof (Hrs p eq_refl Heqo) as ->.
  assert (Hz : IsZero (AsyncCommand.EndTime t) = false) by (by apply Hend).
  assert (z = 0) as ->.
  { destruct (decide (z = 0)) as [| Hnz]; [done |].
    destruct (Hre p eq_refl z Heqo0 Hnz). }
  split; [reflexivity |].
  unfold completeSnapshot, statusResult. simpl. by rewrite Hz.
Qed.

(** Every configuration a schedule reaches satisfies the invariant. *)
Lemma exec_Inv (evs : list Event) :
  forall c c', Inv c -> exec evs c = Some c' -> Inv c'.
Proof.
  induction evs as [| ev evs IH]; intros c c' Hc Hrun; simpl in Hrun.
  - by injection Hrun as <-.
  - destruct (step ev c) as [c1 |] eqn:Hstep; [| discriminate].
    eapply IH; [| exact Hrun]. by eapply step_Inv.
Qed.

(** Among the schedules of the model, a snapshot that reports "completed"
    has exit code 0 and carries a duration, computed from the end time the
    watcher recorded, which is set. This rests on [Status] being stored last
    and [EndTime] being loaded last, an order nothing in the code enforces
    between the goroutines; and exit code 0 is also what a record holds
    before the watcher has written anything. *)
Lemma completed_snapshot_has_exit_code_and_end_time
    (id : string) (cmd : Cmd) (now : Time) (evs : list Event) (c : Config)
    (r : StatusResult) :
  exec evs (spawned id cmd now) = Some c ->
  In r (snapshots c) ->
  status r = "completed" ->
  exit_code r = 0
  /\ IsZero (AsyncCommand.EndTime (task c)) = false
  /\ duration_ms r
     = Some (Milliseconds (Sub (AsyncCommand.EndTime (task c))
                               (AsyncCommand.StartTime (task c))))
  /\ elapsed_ms r = None.
Proof.
  intros Hrun Hin Hs.
  pose proof (exec_Inv evs _ _ (Inv_spawned id cmd now) Hrun) as HI.
  destruct (inv_snapshots c HI r Hin Hs) as (_ & He & Hd & Hel & Hz).
  by repeat split.
Qed.

(** C2 (the code at the failing input). The process of task [t1] exits with
    status 3 two seconds after its start, and a status request is served
    after the watcher has assigned [EndTime] and [ExitCode] and before it
    assigns [Status]. The snapshot reports "running" together with exit code
    3 and a duration of 2000 ms: a record updated in part. It is neither the
    snapshot of the record before the watcher's transition ("running", exit
    code 0, no duration) nor that of the record after it ("failed", exit
    code 3, 2000 ms), which is what the task holds when the schedule ends. *)
Theorem status_snapshot_mixes_old_and_new_fields :
  snapshots <$> exec queryDuringTransition (spawned "t1" sleepCmd 1000000000)
  = Some [ {| command_id := "t1";
              status := "running";
              exit_code := 3;
              stdout := "";
              stderr := "";
              duration_ms := Some 2000;
              elapsed_ms := None |} ]
  /\ task <$> exec queryDuringTransition (spawned "t1" sleepCmd 1000000000)
     = Some exitedTask
  /\ (status (statusOf freshTask), exit_code (statusOf freshTask),
      duration_ms (statusOf freshTask))
     = ("running", 0, None)
  /\ (status (statusOf exitedTask), exit_code (statusOf exitedTask),
      duration_ms (statusOf exitedTask))
     = ("failed", 3, Some 2000).
Proof. repeat split; vm_compute; reflexivity. Qed.

End command_facts.

(** * Instances

    The theorems above at concrete servers, requests and schedules. *)

Module examples.
Import mcp mcp_facts command command_facts fixtures.

(** [cancel_command] called without its [command_id]. *)
Lemma handler_error_is_flagged_result_witness :
  handleRequest Executor demoUnmarshalCallParams demoMarshal commandServer
    (callRequest "cancel_command") (NewExecutor defaultConfig)
  = (["tool error"], NewExecutor defaultConfig).
Proof.
  apply (handler_error_is_flagged_result demoUnmarshalCallParams demoMarshal
           commandServer (callRequest "cancel_command")
           (NewExecutor defaultConfig) (NewExecutor defaultConfig)
           "cancel_command" ∅ cancelCommandTool None
           "missing required parameter: command_id" "tool error");
    reflexivity.
Defined.

(** A call of a tool nobody registered. *)
Lemma unknown_tool_is_protocol_error_witness :
  handleRequest Executor demoUnmarshalCallParams demoMarshal commandServer
    (callRequest "format_disk") (NewExecutor defaultConfig)
  = (["Unknown tool"], NewExecutor defaultConfig).
Proof.
  apply (unknown_tool_is_protocol_error demoUnmarshalCallParams demoMarshal
           commandServer (callRequest "format_disk")
           (NewExecutor defaultConfig) "format_disk" ∅ "Unknown tool");
    reflexivity.
Defined.

Lemma Run_skips_empty_reports_malformed_witness :
  let r := Run Executor demoUnmarshalRequest demoUnmarshalCallParams
             demoMarshal commandServer (fun _ => false) None noisyFrames
             (NewExecutor defaultConfig) in
  run_err Executor r = None
  /\ run_output Executor r = ["Parse error"; "Parse error"].
Proof.
  destruct (Run_skips_empty_reports_malformed demoUnmarshalRequest
              demoUnmarshalCallParams demoMarshal commandServer
              (fun _ => false) noisyFrames (NewExecutor defaultConfig)
              (fun _ => eq_refl)) as (Herr & _ & Hbad).
  split; [exact Herr |].
  destruct (Hbad [""] "garbage" [""; "more garbage"] "invalid character"
              "Parse error" eq_refl ltac:(discriminate) eq_refl eq_refl)
    as [Hout _].
  exact Hout.
Defined.

Lemma RegisterTool_same_name_replaces_witness :
  exists s',
    s' = RegisterTool unit
           (RegisterTool unit (NewServer unit "test-server" "1.0.0")
              (echoTool "first"))
           (echoTool "second")
    /\ tools unit s' !! "echo" = Some (echoTool "second")
    /\ entriesNamed "echo" (listTools unit s')
       = [toolInfo unit (echoTool "second")]
    /\ handleToolsCall unit demoUnmarshalCallParams demoMarshal s'
         (callRequest "echo") tt
       = (["tool result"], tt)
    /\ handleRequest unit demoUnmarshalCallParams demoMarshal s'
         (callRequest "echo") tt
       = (["tool result"], tt)
    /\ (exists l i,
          handleRequest unit demoUnmarshalCallParams demoMarshal s'
            (methodRequest "tools/list") tt
          = (["tools: " +:+ String.concat "," (info_name <$> l)], tt)
          /\ filter (λ j, info_name j = "echo") l = [i]
          /\ info_name i = "echo"
          /\ info_description i = "Echo back the input"
          /\ info_inputSchema i = InputSchema unit (echoTool "second")).
Proof.
  eexists. split; [reflexivity |].
  destruct (RegisterTool_same_name_replaces demoUnmarshalCallParams
              demoMarshal (NewServer unit "test-server" "1.0.0")
              (echoTool "first") (echoTool "second")
              (NewServer_keyedByName "test-server" "1.0.0") eq_refl)
    as (Hlook & _ & _ & Hlist & Hcall & Hlist' & Hcall').
  split; [exact Hlook |]. split; [exact Hlist |].
  split; [exact (Hcall (callRequest "echo") tt ∅ eq_refl) |].
  split; [exact (Hcall' (callRequest "echo") tt ∅ eq_refl eq_refl) |].
  exact (Hlist' (methodRequest "tools/list") tt eq_refl).
Defined.

(** Spawning a program that does not exist. *)
Lemma RunAsync_start_failure_stores_nothing_witness :
  let r := RunAsync (NewExecutor defaultConfig) [] "t1" 1000000000
             (Some "fork/exec /nosuch: no such file or directory")
             "/nosuch" [] "" ∅ in
  r.1 = ("", Some "fork/exec /nosuch: no such file or directory")
  /\ r.2 = NewExecutor defaultConfig
  /\ GetStatus r.2 "t1" = None
  /\ CancelCommand r.2 "t1" = (false, r.2).
Proof.
  destruct (RunAsync_start_failure_stores_nothing demoMarshalIndent
              (NewExecutor defaultConfig) [] "t1" 1000000000
              "fork/exec /nosuch: no such file or directory"
              "/nosuch" [] "" ∅ eq_refl)
    as (H1 & H2 & _ & _ & H5 & H6 & _).
  exact (conj H1 (conj H2 (conj H5 H6))).
Defined.

End examples.

(** * Further properties of the code *)

(** ** Parameter helpers *)

Module helper_facts.
Import mcp.

(** X1. [GetStringParam] returns a present string as it is, reads an absent
    optional parameter as the empty string without error (as it does an
    explicit empty string), and reports an error exactly when the key is
    absent and required or present with a value that is not a string. *)
Theorem GetStringParam_cases (params : gmap string Value) (key : string)
    (required : bool) :
  (forall s, params !! key = Some (VString s) ->
     GetStringParam params key required = Ok s)
  /\ (params !! key = None -> required = false ->
      GetStringParam params key required = Ok ""
      /\ GetStringParam (<[key := VString ""]> params) key required = Ok "")
  /\ (isErr (GetStringParam params key required) = true <->
      (params !! key = None /\ required = true)
      \/ (exists v, params !! key = Some v /\ forall s, v <> VString s)).
Proof.
  unfold GetStringParam. split; [| split].
  - by intros s ->.
  - intros -> ->. split; [reflexivity |]. by rewrite lookup_insert_eq.
  - destruct (params !! key) as [v |] eqn:E.
    + destruct v; simpl; split; try done; try (intros _; right; eauto; fail).
      * intros [[? _] | (v & [= <-] & Hv)]; [done | by destruct (Hv s)].
    + destruct required; simpl; split; try done; eauto.
      * intros [[_ ?] | (v & ? & _)]; done.
Qed.

Lemma stringItems_strings (key : string) (l : list string) :
  forall i, stringItems key i (VString <$> l) = Ok l.
Proof.
  induction l as [| s l IH]; intros i; simpl; [reflexivity |].
  by rewrite IH.
Qed.

Lemma stringItems_Ok (key : string) (arr : list Value) :
  forall i l, stringItems key i arr = Ok l -> arr = VString <$> l.
Proof.
  induction arr as [| v arr IH]; intros i l H; simpl in H.
  - by injection H as <-.
  - destruct v; try discriminate H.
    destruct (stringItems key (S i) arr) as [l' |] eqn:E; [| discriminate H].
    injection H as <-. simpl. f_equal. by eapply IH.
Qed.

Lemma stringItems_first_bad (key : string) (pre : list string) (v : Value)
    (post : list Value) :
  (forall s, v <> VString s) ->
  forall i,
    stringItems key i ((VString <$> pre) ++ v :: post)
    = Err ("parameter " +:+ key +:+ "[" +:+ pretty (i + length pre)%nat
           +:+ "] must be a string").
Proof.
  intros Hv. induction pre as [| s pre IH]; intros i; simpl.
  - rewrite Nat.add_0_r. destruct v; try reflexivity. by destruct (Hv s).
  - rewrite IH. by replace (S i + length pre)%nat with (i + S (length pre))%nat by lia.
Qed.

(** X2. For a parameter holding an array, [GetStringArrayParam] succeeds
    exactly when every element is a string, and then returns those strings in
    order (the array is the list of the results as values); otherwise its
    error names the index of the first element that is not a string. *)
Theorem GetStringArrayParam_array (params : gmap string Value) (key : string)
    (required : bool) (arr : list Value) :
  params !! key = Some (VArray arr) ->
  (forall l, GetStringArrayParam params key required = Ok l
             <-> arr = VString <$> l)
  /\ (forall pre v post,
        arr = ((VString <$> pre) ++ v :: post)%list ->
        (forall s, v <> VString s) ->
        GetStringArrayParam params key required
        = Err ("parameter " +:+ key +:+ "[" +:+ pretty (length pre)
               +:+ "] must be a string")).
Proof.
  intros Hk. unfold GetStringArrayParam. rewrite Hk. split.
  - intros l. split; [apply stringItems_Ok |].
    intros ->. apply stringItems_strings.
  - intros pre v post -> Hv. by rewrite stringItems_first_bad.
Qed.

Lemma GetStringArrayParam_array_witness :
  GetStringArrayParam {[ "args" := VArray [VString "-l"; VInt 3; VNil] ]}
    "args" false
  = Err "parameter args[1] must be a string".
Proof.
  apply (proj2 (GetStringArrayParam_array
                  {[ "args" := VArray [VString "-l"; VInt 3; VNil] ]}
                  "args" false [VString "-l"; VInt 3; VNil]
                  (lookup_singleton_eq _ _))
           ["-l"] (VInt 3) [VNil] eq_refl).
  intros s. discriminate.
Defined.

Lemma stringEntries_Ok (key : string) (l : list (string * Value)) :
  NoDup l.*1 ->
  forall acc r,
    stringEntries key l acc = Ok r ->
    forall k s,
      r !! k = Some s
      <-> ((k, VString s) ∈ l) \/ ((k ∉ l.*1) /\ acc !! k = Some s).
Proof.
  induction l as [| [k0 v0] l IH]; intros Hnd acc r H k s.
  - simpl in H. injection H as <-. rewrite elem_of_nil. simpl.
    rewrite elem_of_nil. tauto.
  - rewrite fmap_cons in Hnd. simpl in Hnd.
    apply NoDup_cons in Hnd as [Hk0 Hnd].
    simpl in H.
    destruct v0 as [| | | | | s0 | |]; try discriminate H.
    rewrite (IH Hnd _ _ H k s). rewrite fmap_cons. simpl.
    rewrite !elem_of_cons.
    destruct (decide (k = k0)) as [-> | Hne].
    + rewrite lookup_insert_eq.
      assert (Hno : forall x, (k0, x) ∉ l).
      { intros x Hin. apply Hk0. apply list_elem_of_fmap. by exists (k0, x). }
      split.
      * intros [Hin | [_ [= ->]]]; [by destruct (Hno _ Hin) | by left; left].
      * intros [[[= <-] | Hin] | [Hn _]].
        -- by right.
        -- by destruct (Hno _ Hin).
        -- destruct Hn. by left.
    + rewrite lookup_insert_ne by done. split.
      * intros [Hin | [Hn Ha]]; [by left; right |].
        right. split; [| done]. by intros [? | ?].
      * intros [[[= ? ?] | Hin] | [Hn Ha]]; [done | by left |].
        right. split; [| done]. intros ?. apply Hn. by right.
Qed.

Lemma stringEntries_Err (key : string) (l : list (string * Value)) :
  forall acc e,
    stringEntries key l acc = Err e ->
    exists k v, (k, v) ∈ l /\ (forall s, v <> VString s)
      /\ e = "parameter " +:+ key +:+ "." +:+ k +:+ " must be a string".
Proof.
  induction l as [| [k0 v0] l IH]; intros acc e H; simpl in H;
    [discriminate H |].
  destruct v0 as [| | | | | s0 | |];
    try (injection H as <-; eexists k0, _;
         split; [apply list_elem_of_here |
                 split; [intros s; discriminate | reflexivity]]).
  destruct (IH _ _ H) as (k & v & Hin & Hv & He).
  exists k, v. split; [by apply list_elem_of_further | done].
Qed.

Lemma stringEntries_strings (key : string) (l : list (string * Value)) :
  Forall (λ kv, exists s, kv.2 = VString s) l ->
  forall acc, exists r, stringEntries key l acc = Ok r.
Proof.
  induction 1 as [| [k v] l [s Hs] _ IH]; intros acc; simpl; [eauto |].
  simpl in Hs. subst v. apply IH.
Qed.

(** The loop succeeds only on strings. *)
Lemma stringEntries_Ok_strings (key : string) (l : list (string * Value)) :
  forall acc r,
    stringEntries key l acc = Ok r ->
    Forall (λ kv, exists s, kv.2 = VString s) l.
Proof.
  induction l as [| [k v] l IH]; intros acc r H; [constructor |].
  simpl in H. destruct v as [| | | | | s | |]; try discriminate H.
  constructor; [by exists s | by apply (IH _ _ H)].
Qed.

(** X3. For a parameter holding an object, [GetMapParam] succeeds exactly
    when every value is a string, and then the result binds a key to a string
    exactly when the object binds it to that string; an error names a key of
    the object whose value is not a string. Put together: the result is [r]
    exactly when the object is [r] with every string taken as a value, and
    an object with a value that is not a string is refused. *)
Theorem GetMapParam_object (params : gmap string Value) (key : string)
    (required : bool) (m : gmap string Value) :
  params !! key = Some (VObject m) ->
  (forall r, GetMapParam params key required = Ok r ->
     forall k s, r !! k = Some s <-> m !! k = Some (VString s))
  /\ ((forall k v, m !! k = Some v -> exists s, v = VString s) ->
      exists r, GetMapParam params key required = Ok r)
  /\ (forall e, GetMapParam params key required = Err e ->
      exists k v, m !! k = Some v /\ (forall s, v <> VString s)
        /\ e = "parameter " +:+ key +:+ "." +:+ k +:+ " must be a string")
  /\ (forall r, GetMapParam params key required = Ok r
                <-> m = VString <$> r)
  /\ ((exists k v, m !! k = Some v /\ forall s, v <> VString s) ->
      isErr (GetMapParam params key required) = true).
Proof.
  intros Hk. unfold GetMapParam. rewrite Hk.
  assert (Hbind : forall r,
             stringEntries key (map_to_list m) ∅ = Ok r ->
             forall k s, r !! k = Some s <-> m !! k = Some (VString s)).
  { intros r H k s.
    rewrite (stringEntries_Ok key _ (NoDup_fst_map_to_list m) _ _ H k s).
    rewrite elem_of_map_to_list, lookup_empty.
    split; [intros [? | [_ ?]]; done | by left]. }
  assert (Hall : forall r,
             stringEntries key (map_to_list m) ∅ = Ok r ->
             forall k v, m !! k = Some v -> exists s, v = VString s).
  { intros r H k v Hv.
    pose proof (stringEntries_Ok_strings _ _ _ _ H) as HF.
    rewrite Forall_forall in HF.
    apply (HF (k, v)). by apply elem_of_map_to_list. }
  assert (Hsome : (forall k v, m !! k = Some v -> exists s, v = VString s) ->
                  exists r, stringEntries key (map_to_list m) ∅ = Ok r).
  { intros Hstr. apply stringEntries_strings, Forall_forall.
    intros [k v] Hin. apply elem_of_map_to_list in Hin. by apply (Hstr k). }
  split; [exact Hbind | split; [exact Hsome | split; [| split]]].
  - intros e H.
    destruct (stringEntries_Err _ _ _ _ H) as (k & v & Hin & Hv & He).
    exists k, v. by rewrite <- elem_of_map_to_list.
  - intros r. split.
    + intros H. apply map_eq. intros k. rewrite lookup_fmap.
      destruct (m !! k) as [v |] eqn:Ev.
      * destruct (Hall r H k v Ev) as [s ->].
        by rewrite (proj2 (Hbind r H k s) Ev).
      * destruct (r !! k) as [s |] eqn:Er; [| reflexivity].
        apply (Hbind r H k s) in Er. congruence.
    + intros Hm.
      destruct Hsome as [r' Hr'].
      { intros k v Hv. rewrite Hm, lookup_fmap in Hv.
        destruct (r !! k) as [s |]; [| discriminate Hv].
        injection Hv as <-. by exists s. }
      rewrite Hr'. f_equal. apply map_eq. intros k. apply option_eq.
      intros s. rewrite (Hbind r' Hr' k s), Hm, lookup_fmap.
      destruct (r !! k) as [s' |]; simpl; [| split; discriminate].
      split; [by intros [= ->] | by intros [= ->]].
  - intros (k & v & Hv & Hbad).
    destruct (stringEntries key (map_to_list m) ∅) as [r | e] eqn:E;
      [| reflexivity].
    destruct (Hall r eq_refl k v Hv) as [s ->]. by destruct (Hbad s).
Qed.

Lemma GetMapParam_object_witness :
  exists r,
    GetMapParam {[ "env" := VObject {[ "HOME" := VString "/root" ]} ]}
      "env" false = Ok r.
Proof.
  apply (proj1 (proj2 (GetMapParam_object
                         {[ "env" := VObject {[ "HOME" := VString "/root" ]} ]}
                         "env" false {[ "HOME" := VString "/root" ]}
                         (lookup_singleton_eq _ _)))).
  intros k v H. apply lookup_singleton_Some in H as [_ <-]. eauto.
Defined.

End helper_facts.

(** ** The server: registry, dispatch and loop *)

Module server_facts.
Import mcp fixtures.

Section Facts.

Context {World : Type}.
Variable unmarshalRequest : string -> Result Request.
Variable unmarshalCallParams : string -> Result (string * gmap string Value).
Variable marshal : Response -> option string.

#[local] Abbreviation handleRequest' :=
  (handleRequest World unmarshalCallParams marshal).
#[local] Abbreviation runFrom' :=
  (runFrom World unmarshalRequest unmarshalCallParams marshal).
#[local] Abbreviation Run' :=
  (Run World unmarshalRequest unmarshalCallParams marshal).

Lemma listTools_names (s : Server World) :
  keyedByName World s ->
  info_name <$> listTools World s = (map_to_list (tools World s)).*1.
Proof.
  intros Hs. unfold listTools. rewrite <- list_fmap_compose.
  apply list_fmap_ext. intros i [k t] Hin. simpl.
  apply Hs. apply elem_of_map_to_list.
  apply list_elem_of_lookup. eauto.
Qed.

(** The entries built for [tools/list]: no two of one name, as many as
    tools, and each the description of the tool registered under its name. *)
Lemma listTools_entries (s : Server World) :
  keyedByName World s ->
  NoDup (info_name <$> listTools World s)
  /\ length (listTools World s) = size (tools World s)
  /\ (forall i, i ∈ listTools World s
        <-> exists t, tools World s !! info_name i = Some t
                      /\ i = toolInfo World t).
Proof.
  intros Hs. split; [| split].
  - rewrite listTools_names by done. apply NoDup_fst_map_to_list.
  - unfold listTools. rewrite length_fmap. apply length_map_to_list.
  - intros i. unfold listTools. rewrite list_elem_of_fmap. split.
    + intros ([k t] & -> & Hin). apply elem_of_map_to_list in Hin.
      exists t. simpl. by rewrite (Hs k t Hin).
    + intros (t & Ht & ->). exists (Name World t, t).
      split; [reflexivity |]. by apply elem_of_map_to_list.
Qed.

(** X4. On a server whose tools are stored under their names, a
    [tools/list] request is answered by one result response, bearing the
    request's id, whose list has one entry per registered tool: the names
    are pairwise distinct, there are as many entries as tools, and an entry
    is listed exactly when its name is registered and its description and
    schema are those of the tool registered under it. No handler runs. *)
Theorem listTools_one_entry_per_tool
    (s : Server World) (req : Request) (w : World) :
  keyedByName World s ->
  Method req = "tools/list" ->
  exists l,
    handleRequest' s req w
    = (match marshal {| resp_JSONRPC := "2.0";
                        resp_ID := ID req;
                        resp_Result := Some (PTools l);
                        resp_Error := None |} with
       | Some line => [line]
       | None => []
       end, w)
    /\ NoDup (info_name <$> l)
    /\ length l = size (tools World s)
    /\ (forall i, i ∈ l
          <-> exists t, tools World s !! info_name i = Some t
                        /\ info_description i = Description World t
                        /\ info_inputSchema i = InputSchema World t).
Proof.
  intros Hs Hm. exists (listTools World s).
  destruct (listTools_entries s Hs) as (Hnd & Hlen & Hin).
  split; [| split; [exact Hnd | split; [exact Hlen |]]].
  - unfold handleRequest. rewrite Hm. reflexivity.
  - intros i. rewrite Hin. split.
    + intros (t & Ht & ->). by exists t.
    + intros (t & Ht & Hd & Hsch). exists t. split; [exact Ht |].
      pose proof (Hs _ _ Ht) as Hn.
      destruct i as [n d sch]. simpl in *. unfold toolInfo. congruence.
Qed.

(** X5. Registering two tools of different names keeps both, in either
    order: the two orders give the same server, each name finds its tool, and
    every other name finds what it found before. *)
Theorem RegisterTool_distinct_names (s : Server World) (a b : Tool World) :
  Name World a <> Name World b ->
  let s' := RegisterTool World (RegisterTool World s a) b in
  s' = RegisterTool World (RegisterTool World s b) a
  /\ tools World s' !! Name World a = Some a
  /\ tools World s' !! Name World b = Some b
  /\ (forall n, n <> Name World a -> n <> Name World b ->
        tools World s' !! n = tools World s !! n).
Proof.
  intros Hne s'. subst s'. unfold RegisterTool. simpl. split; [| split; [| split]].
  - f_equal. by apply insert_insert_ne.
  - rewrite lookup_insert_ne by done. apply lookup_insert_eq.
  - apply lookup_insert_eq.
  - intros n Ha Hb. by rewrite !lookup_insert_ne.
Qed.

Lemma send_length (resp : Response) : (length (send marshal resp) <= 1)%nat.
Proof. unfold send. destruct (marshal resp); simpl; lia. Qed.

Lemma handleRequest_length (s : Server World) (req : Request) (w : World) :
  (length (handleRequest' s req w).1 <= 1)%nat.
Proof.
  unfold handleRequest, handleInitialize, handleToolsList, handleToolsCall,
    sendResult, sendError.
  repeat match goal with
         | |- context [if ?b then _ else _] => destruct b
         | |- context [match ?x with _ => _ end] => destruct x
         end; simpl; try apply send_length; lia.
Qed.

(** X6. Whatever the frames, the codec, the tools and the state of the
    context, the loop writes at most one line per non-empty frame. *)
Theorem Run_at_most_one_line_per_frame
    (s : Server World) (ctxDone : nat -> bool) (scanErr : option error)
    (frames : list string) (w : World) :
  (length (run_output World (Run' s ctxDone scanErr frames w))
   <= length (filter (λ f, f <> "") frames))%nat.
Proof.
  unfold Run. generalize 0%nat. revert w.
  induction frames as [| line rest IH]; intros w i; simpl; [lia |].
  destruct (ctxDone i); [simpl; lia |].
  destruct line as [| c line].
  - simpl. rewrite filter_cons_False by (intros H; by destruct H). apply IH.
  - rewrite filter_cons_True by done. simpl.
    destruct (unmarshalRequest (String c line)) as [req | e]; simpl.
    + pose proof (handleRequest_length s req w) as Hl.
      destruct (handleRequest' s req w) as [out w']. simpl in *.
      rewrite length_app. specialize (IH w' (S i)). lia.
    + rewrite length_app. specialize (IH w (S i)).
      pose proof (send_length (errorResponse VNil (-32700) "Parse error" e)).
      unfold sendError. lia.
Qed.

(** X7. A request whose method is none of [initialize], [tools/list],
    [tools/call] and [notifications/initialized] is answered by one error
    envelope with code -32601, message "Method not found" and the method as
    data, bearing the request's id; no handler runs. *)
Theorem unknown_method_is_protocol_error
    (s : Server World) (req : Request) (w : World) (line : string) :
  Method req <> "initialize" ->
  Method req <> "tools/list" ->
  Method req <> "tools/call" ->
  Method req <> "notifications/initialized" ->
  marshal (errorResponse (ID req) (-32601) "Method not found" (Method req))
  = Some line ->
  handleRequest' s req w = ([line], w).
Proof.
  intros H1 H2 H3 H4 Hl. unfold handleRequest.
  apply String.eqb_neq in H1, H2, H3, H4. rewrite H1, H2, H3, H4.
  unfold sendError, send. by rewrite Hl.
Qed.

(** X8. A [tools/call] request whose parameters do not decode is answered
    by one error envelope with code -32602 and message "Invalid params",
    carrying the decoder's error; no tool is looked up and no handler runs. *)
Theorem undecodable_call_is_invalid_params
    (s : Server World) (req : Request) (w : World) (e : error)
    (line : string) :
  Method req = "tools/call" ->
  unmarshalCallParams (Params req) = Err e ->
  marshal (errorResponse (ID req) (-32602) "Invalid params" e) = Some line ->
  handleRequest' s req w = ([line], w).
Proof.
  intros Hm Hp Hl. unfold handleRequest. rewrite Hm. simpl.
  unfold handleToolsCall. rewrite Hp. unfold sendError, send. by rewrite Hl.
Qed.

(** X9. A [tools/call] request whose handler returns no error is answered
    by one result response carrying what the handler returned, as it is
    (a nil result included), and the world is the one the handler left. *)
Theorem handler_result_is_passed_through
    (s : Server World) (req : Request) (w w' : World) (n : string)
    (args : gmap string Value) (tool : Tool World)
    (r : option ToolResult) (line : string) :
  Method req = "tools/call" ->
  unmarshalCallParams (Params req) = Ok (n, args) ->
  tools World s !! n = Some tool ->
  Handler World tool args w = ((r, None), w') ->
  marshal (resultResponse (ID req) (PToolResult r)) = Some line ->
  handleRequest' s req w = ([line], w').
Proof.
  intros Hm Hp Ht Hh Hl. unfold handleRequest. rewrite Hm. simpl.
  unfold handleToolsCall. rewrite Hp, Ht, Hh.
  unfold sendResult, send. by rewrite Hl.
Qed.

Lemma runFrom_cancelled (s : Server World) (ctxDone : nat -> bool)
    (scanErr : option error) (f : string) (post : list string)
    (pre : list string) :
  forall i w,
    (forall j, (j < length pre)%nat -> ctxDone (i + j)%nat = false) ->
    ctxDone (i + length pre)%nat = true ->
    runFrom' s ctxDone scanErr i (pre ++ f :: post) w
    = {| run_err := Some "context canceled";
         run_output := run_output World (runFrom' s ctxDone None i pre w);
         run_world := run_world World (runFrom' s ctxDone None i pre w) |}.
Proof.
  induction pre as [| line rest IH]; intros i w Hlive Hdone; simpl.
  - rewrite Nat.add_0_r in Hdone. by rewrite Hdone.
  - pose proof (Hlive 0%nat ltac:(simpl; lia)) as H0.
    rewrite Nat.add_0_r in H0. rewrite H0.
    assert (Hlive' : forall j, (j < length rest)%nat ->
                               ctxDone (S i + j)%nat = false).
    { intros j Hj. replace (S i + j)%nat with (i + S j)%nat by lia.
      apply Hlive. simpl. lia. }
    assert (Hdone' : ctxDone (S i + length rest)%nat = true).
    { replace (S i + length rest)%nat with (i + length (line :: rest))%nat
        by (simpl; lia). exact Hdone. }
    destruct (String.length line =? 0)%nat; [by apply IH |].
    destruct (unmarshalRequest line) as [req | e].
    + destruct (handleRequest' s req w) as [out w'].
      by rewrite (IH (S i) w' Hlive' Hdone').
    + by rewrite (IH (S i) w Hlive' Hdone').
Qed.

(** X10. When the context is found done at the head of the iteration for
    some frame, the loop returns the context's error at once: the frames
    before it have been processed as usual, that frame and the ones after it
    are dropped without any response. *)
Theorem Run_stops_when_cancelled
    (s : Server World) (ctxDone : nat -> bool) (scanErr : option error)
    (pre : list string) (f : string) (post : list string) (w : World) :
  (forall j, (j < length pre)%nat -> ctxDone j = false) ->
  ctxDone (length pre) = true ->
  let r := Run' s ctxDone scanErr (pre ++ f :: post) w in
  let r0 := Run' s ctxDone None pre w in
  run_err World r = Some "context canceled"
  /\ run_output World r = run_output World r0
  /\ run_world World r = run_world World r0.
Proof.
  intros Hlive Hdone. unfold Run.
  by rewrite (runFrom_cancelled s ctxDone scanErr f post pre 0 w Hlive Hdone).
Qed.

(** X11. With a live context, an error of the input stream is returned only
    once every scanned frame has been processed: the output and the world are
    those of the same frames ended by end of input, and the error returned is
    the stream's. *)
Theorem Run_returns_read_error_last
    (s : Server World) (ctxDone : nat -> bool) (scanErr : option error)
    (frames : list string) (w : World) :
  (forall i, ctxDone i = false) ->
  let r := Run' s ctxDone scanErr frames w in
  let r0 := Run' s ctxDone None frames w in
  run_err World r = scanErr
  /\ run_output World r = run_output World r0
  /\ run_world World r = run_world World r0.
Proof.
  intros Hctx. unfold Run. generalize 0%nat. revert w.
  induction frames as [| line rest IH]; intros w i; simpl; [done |].
  rewrite Hctx.
  destruct (String.length line =? 0)%nat; [apply IH |].
  destruct (unmarshalRequest line) as [req | e].
  - destruct (handleRequest' s req w) as [out w']. simpl.
    destruct (IH w' (S i)) as (H1 & H2 & H3). by rewrite H1, H2, H3.
  - simpl. destruct (IH w (S i)) as (H1 & H2 & H3). by rewrite H1, H2, H3.
Qed.

End Facts.

End server_facts.

(** ** The command validator *)

Module validator_facts.
Import common.

Lemma append_cons (x : ascii) (a b : string) :
  String x a +:+ b = String x (a +:+ b).
Proof. reflexivity. Qed.

Lemma append_nil (b : string) : "" +:+ b = b.
Proof. reflexivity. Qed.

Lemma app_assoc_string (a b c : string) : (a +:+ b) +:+ c = a +:+ (b +:+ c).
Proof.
  induction a as [| x a IH]; [reflexivity |].
  by rewrite !append_cons, IH.
Qed.

Lemma HasPrefix_spec (s pre : string) :
  HasPrefix s pre = true <-> exists post, s = pre +:+ post.
Proof.
  unfold HasPrefix. revert s.
  induction pre as [| a pre IH]; intros s.
  - split; [intros _; by exists s | by destruct s].
  - destruct s as [| b s]; simpl.
    + split; [done | intros [post H]; discriminate H].
    + destruct (Ascii.ascii_dec a b) as [-> | Hne].
      * rewrite IH. split; intros [post H]; exists post.
        -- by rewrite append_cons, H.
        -- rewrite append_cons in H. by injection H.
      * split; [done |]. intros [post H]. rewrite append_cons in H.
        injection H as ? ?. congruence.
Qed.

Lemma Contains_nil (substr : string) :
  Contains "" substr = HasPrefix "" substr || false.
Proof. reflexivity. Qed.

Lemma Contains_cons (c : ascii) (s substr : string) :
  Contains (String c s) substr
  = HasPrefix (String c s) substr || Contains s substr.
Proof. reflexivity. Qed.

Lemma Contains_spec (s substr : string) :
  Contains s substr = true <-> exists pre post, s = pre +:+ substr +:+ post.
Proof.
  induction s as [| c s IH].
  - rewrite Contains_nil, orb_false_r, HasPrefix_spec. split.
    + intros [post H]. by exists "", post.
    + intros ([| x pre] & post & H); [by exists post | discriminate H].
  - rewrite Contains_cons, orb_true_iff, HasPrefix_spec, IH. split.
    + intros [[post H] | (pre & post & H)].
      * by exists "", post.
      * exists (String c pre), post. by rewrite append_cons, H.
    + intros ([| x pre] & post & H).
      * left. by exists post.
      * right. rewrite append_cons in H. injection H as -> H.
        by exists pre, post.
Qed.

(** The searched command line is the command and its arguments joined by
    single spaces. *)
Lemma fullCommand_Join (command : string) (args : list string) :
  fullCommand command args = Join (command :: args) " ".
Proof. unfold fullCommand, Join. by destruct args. Qed.

Lemma find_denied (f : string -> bool) (l : list string) :
  (exists d, In d l /\ f d = true) -> exists d, find f l = Some d.
Proof.
  intros (d & Hin & Hd).
  destruct (find f l) as [x |] eqn:E; [eauto |].
  by rewrite (find_none f l E d Hin) in Hd.
Qed.

Lemma find_Contains_None (line : string) (denied : list string) :
  find (Contains line) denied = None
  <-> forall d, In d denied -> ~ exists pre post, line = pre +:+ d +:+ post.
Proof.
  split.
  - intros Ef d Hin Hc. apply Contains_spec in Hc.
    by rewrite (find_none _ _ Ef d Hin) in Hc.
  - intros H. destruct (find (Contains line) denied) as [d |] eqn:Ef; [| done].
    apply find_some in Ef as [Hin Hc]. apply Contains_spec in Hc.
    by destruct (H d Hin).
Qed.

Lemma existsb_HasPrefix (command : string) (allowed : list string) :
  existsb (HasPrefix command) allowed = true
  <-> exists a post, In a allowed /\ command = a +:+ post.
Proof.
  rewrite existsb_exists. split.
  - intros (a & Hin & Hp). apply HasPrefix_spec in Hp as [post Hp]. eauto.
  - intros (a & post & Hin & Hp). exists a. split; [done |].
    apply HasPrefix_spec. eauto.
Qed.

(** X12. [ValidateCommand] accepts exactly the non-empty commands for which
    no denied pattern occurs in the command line (the command and its
    arguments joined by single spaces) and which, when the allow-list is not
    empty, start with one of its entries. *)
Theorem ValidateCommand_accepts_iff (v : CommandValidator) (command : string)
    (args : list string) :
  ValidateCommand v command args = None
  <-> command <> ""
      /\ (forall d, In d (DeniedCommands v) ->
            ~ exists pre post, Join (command :: args) " " = pre +:+ d +:+ post)
      /\ (AllowedCommands v = []
          \/ exists a post, In a (AllowedCommands v) /\ command = a +:+ post).
Proof.
  unfold ValidateCommand. rewrite <- fullCommand_Join.
  rewrite <- find_Contains_None, <- existsb_HasPrefix.
  destruct (String.eqb_spec command "") as [-> | Hne].
  { split; [done | by intros [? _]]. }
  destruct (find _ (DeniedCommands v)) as [d |].
  { split; [done | by intros (_ & ? & _)]. }
  destruct (AllowedCommands v) as [| a0 al].
  { simpl. split; [intros _ | done].
    split; [done | split; [done | by left]]. }
  destruct (existsb (HasPrefix command) (a0 :: al)).
  - split; [intros _ | done].
    split; [done | split; [done | by right]].
  - split; [done |]. by intros (_ & _ & [? | ?]).
Qed.

(** X13. The deny-list wins over the allow-list and looks at the arguments
    too: a non-empty command is rejected with the "command denied" error
    naming a denied pattern whenever some denied pattern occurs in the
    command line, whatever the allow-list holds; in particular a command
    rejected this way without arguments is rejected with any arguments. *)
Theorem ValidateCommand_denied_pattern (v : CommandValidator)
    (command : string) (args : list string) (d pre post : string) :
  command <> "" ->
  In d (DeniedCommands v) ->
  Join (command :: args) " " = pre +:+ d +:+ post ->
  (exists d', In d' (DeniedCommands v)
     /\ ValidateCommand v command args
        = Some (ErrCommandDenied +:+ ": command matches denied pattern: "
                +:+ d'))
  /\ (args = [] -> forall args',
        exists d', In d' (DeniedCommands v)
          /\ ValidateCommand v command args'
             = Some (ErrCommandDenied +:+ ": command matches denied pattern: "
                     +:+ d')).
Proof.
  intros Hne Hin Hocc.
  assert (Hgen : forall args0,
            Contains (fullCommand command args0) d = true ->
            exists d', In d' (DeniedCommands v)
              /\ ValidateCommand v command args0
                 = Some (ErrCommandDenied
                         +:+ ": command matches denied pattern: " +:+ d')).
  { intros args0 Hc. unfold ValidateCommand.
    destruct (String.eqb_spec command ""); [done |].
    destruct (find_denied (Contains (fullCommand command args0))
                (DeniedCommands v)) as [d' Hf]; [by exists d |].
    rewrite Hf. exists d'. split; [| reflexivity].
    by apply find_some in Hf as [? _]. }
  split.
  - apply Hgen. apply Contains_spec. rewrite fullCommand_Join. eauto.
  - intros -> args'. apply Hgen. apply Contains_spec.
    simpl in Hocc. unfold fullCommand.
    destruct (0 <? length args')%nat; [| eauto].
    exists pre, (post +:+ (" " +:+ Join args' " ")).
    rewrite Hocc. by rewrite !app_assoc_string.
Qed.

Lemma ValidateCommand_denied_pattern_witness :
  exists d', In d' ["rm -rf /"; "sudo"]
    /\ ValidateCommand (NewCommandValidator [] ["rm -rf /"; "sudo"])
         "rm" ["-rf"; "/"]
       = Some (ErrCommandDenied +:+ ": command matches denied pattern: "
               +:+ d').
Proof.
  apply (proj1 (ValidateCommand_denied_pattern
                  (NewCommandValidator [] ["rm -rf /"; "sudo"])
                  "rm" ["-rf"; "/"] "rm -rf /" "" ""
                  ltac:(discriminate) (or_introl eq_refl) eq_refl)).
Defined.

(** X14. Degenerate patterns: an empty denied pattern rejects every
    command, and an empty allowed prefix admits every non-empty command that
    no denied pattern rejects. *)
Theorem ValidateCommand_empty_patterns (v : CommandValidator)
    (command : string) (args : list string) :
  (In "" (DeniedCommands v) -> ValidateCommand v command args <> None)
  /\ (In "" (AllowedCommands v) -> command <> "" ->
      (forall d, In d (DeniedCommands v) ->
         ~ exists pre post, Join (command :: args) " " = pre +:+ d +:+ post) ->
      ValidateCommand v command args = None).
Proof.
  unfold ValidateCommand. split.
  - intros Hin. destruct (String.eqb command ""); [done |].
    destruct (find_denied (Contains (fullCommand command args))
                (DeniedCommands v)) as [d' ->]; [| done].
    exists "". split; [done |]. apply Contains_spec.
    by exists "", (fullCommand command args).
  - intros Hin Hne Hd. rewrite <- fullCommand_Join in Hd.
    apply find_Contains_None in Hd. rewrite Hd.
    destruct (String.eqb_spec command ""); [done |].
    destruct (AllowedCommands v) as [| a0 al] eqn:Ea; [done |].
    assert (Hx : existsb (HasPrefix command) (a0 :: al) = true).
    { apply existsb_HasPrefix. by exists "", command. }
    simpl length. simpl Nat.eqb. cbv iota. by rewrite Hx.
Qed.

End validator_facts.

(** ** The executor *)

Module executor_facts.
Import command command_facts.

Lemma truncateOutput_negative (max : Z) (s : string) :
  max < 0 -> truncateOutput max s = None.
Proof.
  intros H. unfold truncateOutput.
  destruct (Z.gtb_spec (Z.of_nat (String.length s)) max); [| lia].
  destruct (Z.ltb_spec max 0); [done | lia].
Qed.

(** X15. A synchronous run panics exactly when the configured ceiling is
    negative, and then it does for every command and every outcome of the
    subprocess; with a non-negative ceiling it always returns a result. *)
Theorem RunSync_panics_iff_negative_ceiling
    (cfg : CommandConfig) (environ : list string)
    (run : Cmd -> Z -> RunOutcome) (command : string) (args : list string)
    (cwd : string) (env : gmap string string) (timeoutSeconds : Z) :
  RunSync cfg environ run command args cwd env timeoutSeconds = None
  <-> MaxOutputSizeBytes cfg < 0.
Proof.
  unfold RunSync, syncResult, truncateResult.
  set (r0 := recordError _ _ _). split.
  - intros H. destruct (Z.lt_ge_cases (MaxOutputSizeBytes cfg) 0) as [| Hge];
      [done |].
    destruct (truncateOutput_truncatedTo (MaxOutputSizeBytes cfg)
                (CommandResult.Stdout r0) Hge) as (out & Ho & _).
    destruct (truncateOutput_truncatedTo (MaxOutputSizeBytes cfg)
                (CommandResult.Stderr r0) Hge) as (err & He & _).
    rewrite Ho, He in H. discriminate H.
  - intros H. by rewrite truncateOutput_negative.
Qed.

Lemma truncateOutput_bound (max : Z) (s r : string) :
  truncateOutput max s = Some r ->
  Z.of_nat (String.length r) <= max + 16
  /\ (String.length r <= String.length s + 16)%nat.
Proof.
  unfold truncateOutput.
  destruct (Z.gtb_spec (Z.of_nat (String.length s)) max) as [Hgt | Hle].
  - destruct (Z.ltb_spec max 0) as [| Hge]; [done |].
    intros [= <-]. rewrite length_append, length_substring_prefix by lia.
    change (String.length truncationMarker) with 16%nat. lia.
  - intros [= <-]. lia.
Qed.

(** X16. Each stream of a synchronous run's result is at most the ceiling
    plus the sixteen bytes of the truncation marker long. *)
Theorem RunSync_output_is_bounded
    (cfg : CommandConfig) (environ : list string)
    (run : Cmd -> Z -> RunOutcome) (command : string) (args : list string)
    (cwd : string) (env : gmap string string) (timeoutSeconds : Z)
    (r : CommandResult.t) :
  RunSync cfg environ run command args cwd env timeoutSeconds = Some r ->
  Z.of_nat (String.length (CommandResult.Stdout r))
  <= MaxOutputSizeBytes cfg + 16
  /\ Z.of_nat (String.length (CommandResult.Stderr r))
     <= MaxOutputSizeBytes cfg + 16.
Proof.
  unfold RunSync, syncResult, truncateResult.
  set (r0 := recordError _ _ _).
  destruct (truncateOutput _ (CommandResult.Stdout r0)) as [out |] eqn:Eo;
    [| done].
  destruct (truncateOutput _ (CommandResult.Stderr r0)) as [err |] eqn:Ee;
    [| done].
  intros [= <-]. simpl.
  split; by eapply truncateOutput_bound.
Qed.

(** X17. A timeout that is zero or negative stands for the configured
    default: the run, and the duration handed to the context, are those
    under [DefaultTimeoutSeconds], and when that default is positive so is
    the number of seconds used. The duration itself is the [int64] product
    of the seconds and 10^9 nanoseconds: it is that product, and positive,
    for 1 to 9223372036 seconds, and it has wrapped around to a negative
    duration (a context that is born expired) for 9223372037 to 18446744073
    seconds. *)
Theorem RunSync_nonpositive_timeout_is_default
    (cfg : CommandConfig) (environ : list string)
    (run : Cmd -> Z -> RunOutcome) (command : string) (args : list string)
    (cwd : string) (env : gmap string string) (timeoutSeconds : Z) :
  (timeoutSeconds <= 0 ->
   RunSync cfg environ run command args cwd env timeoutSeconds
   = RunSync cfg environ run command args cwd env (DefaultTimeoutSeconds cfg))
  /\ (0 < DefaultTimeoutSeconds cfg -> 0 < effectiveTimeout cfg timeoutSeconds)
  /\ (timeoutSeconds <= 0 ->
      timeoutDuration cfg timeoutSeconds
      = timeoutDuration cfg (DefaultTimeoutSeconds cfg))
  /\ (0 < effectiveTimeout cfg timeoutSeconds <= 9223372036 ->
      timeoutDuration cfg timeoutSeconds
      = effectiveTimeout cfg timeoutSeconds * 1000000000
      /\ 0 < timeoutDuration cfg timeoutSeconds)
  /\ (9223372037 <= effectiveTimeout cfg timeoutSeconds <= 18446744073 ->
      timeoutDuration cfg timeoutSeconds
      = effectiveTimeout cfg timeoutSeconds * 1000000000 - 2 ^ 64
      /\ timeoutDuration cfg timeoutSeconds < 0).
Proof.
  assert (Hdef : timeoutSeconds <= 0 ->
                 effectiveTimeout cfg timeoutSeconds
                 = effectiveTimeout cfg (DefaultTimeoutSeconds cfg)).
  { intros H. unfold effectiveTimeout.
    destruct (Z.leb_spec timeoutSeconds 0); [| lia].
    by destruct (Z.leb_spec (DefaultTimeoutSeconds cfg) 0). }
  assert (E63 : 2 ^ 63 = 9223372036854775808) by reflexivity.
  assert (E64 : 2 ^ 64 = 18446744073709551616) by reflexivity.
  split; [| split; [| split; [| split]]].
  - intros H. unfold RunSync. by rewrite (Hdef H).
  - intros H. unfold effectiveTimeout.
    destruct (Z.leb_spec timeoutSeconds 0); lia.
  - intros H. unfold timeoutDuration. by rewrite (Hdef H).
  - intros H. unfold timeoutDuration, wrapInt64. rewrite E63, E64.
    rewrite Z.mod_small by lia. lia.
  - intros H. unfold timeoutDuration, wrapInt64. rewrite E63, E64.
    replace (effectiveTimeout cfg timeoutSeconds * 1000000000
             + 9223372036854775808)
      with (effectiveTimeout cfg timeoutSeconds * 1000000000
            - 9223372036854775808 + 1 * 18446744073709551616) by lia.
    rewrite Z.mod_add by lia. rewrite Z.mod_small by lia. lia.
Qed.

(** X18. The subprocess runs in the working directory of the request when
    one is given and in the configured one otherwise; without environment
    overrides it inherits the environment, and with overrides it gets the
    inherited entries followed by one [key=value] entry per override. *)
Theorem newCmd_dir_and_env (cfg : CommandConfig) (environ : list string)
    (command : string) (args : list string) (cwd : string)
    (env : gmap string string) :
  let cmd := newCmd cfg environ command args cwd env in
  (cwd <> "" -> Dir cmd = cwd)
  /\ (cwd = "" -> Dir cmd = WorkingDirectory cfg)
  /\ (env = ∅ -> Env cmd = None)
  /\ (env <> ∅ ->
      exists added,
        Env cmd = Some (environ ++ added)%list
        /\ length added = size env
        /\ forall k v, env !! k = Some v -> (k +:+ "=" +:+ v) ∈ added).
Proof.
  simpl. split; [| split; [| split]].
  - intros H. by destruct (String.eqb_spec cwd "").
  - intros ->. simpl. by destruct (String.eqb_spec (WorkingDirectory cfg) "").
  - intros ->. by rewrite map_size_empty.
  - intros H. apply map_size_non_empty_iff in H.
    destruct (Nat.ltb_spec 0 (size env)); [| lia].
    eexists. split; [reflexivity |]. split.
    + by rewrite length_fmap, length_map_to_list.
    + intros k v Hk. apply list_elem_of_fmap. exists (k, v).
      split; [reflexivity |]. by apply elem_of_map_to_list.
Qed.

(** *** The task table *)

(** X19. A spawn whose subprocess starts returns the id it drew and stores
    under it a task that is running, started at the given time, with empty
    output, exit code 0 and no end time: its status snapshot has no
    [duration_ms], and what it carries under [elapsed_ms] is the start time
    in Unix seconds, not a time elapsed. Every other id finds what it found
    before, and the configuration is kept. *)
Theorem RunAsync_registers_running_task
    (e : Executor) (environ : list string) (id : string) (now : Time)
    (command : string) (args : list string) (cwd : string)
    (env : gmap string string) :
  let r := RunAsync e environ id now None command args cwd env in
  r.1 = (id, None)
  /\ (exists c, GetStatus r.2 id = Some c
        /\ AsyncCommand.ID c = id
        /\ AsyncCommand.Status c = "running"
        /\ AsyncCommand.StartTime c = now
        /\ AsyncCommand.ExitCode c = 0
        /\ AsyncCommand.Stdout c = "" /\ AsyncCommand.Stderr c = ""
        /\ AsyncCommand.Cancelled c = false
        /\ duration_ms (statusOf c) = None
        /\ elapsed_ms (statusOf c) = Some (Unix now))
  /\ (forall id', id' <> id -> GetStatus r.2 id' = GetStatus e id')
  /\ config r.2 = config e.
Proof.
  simpl. split; [reflexivity | split; [| split; [| reflexivity]]].
  - eexists. unfold GetStatus. simpl. rewrite lookup_insert_eq.
    split; [reflexivity |]. by repeat split.
  - intros id' Hne. unfold GetStatus. simpl. by rewrite lookup_insert_ne.
Qed.

(** X20. [CancelCommand] accepts exactly when the id is known and its task
    reads "running". Accepting cancels the task's context and sets its status
    to "cancelled", leaving its other fields and all other tasks as they
    were; refusing changes nothing; and a cancel right after an accepted one
    is refused. *)
Theorem CancelCommand_accepts_running_only (e : Executor) (id : string) :
  let r := CancelCommand e id in
  (r.1 = true <->
   exists c, GetStatus e id = Some c /\ AsyncCommand.Status c = "running")
  /\ (r.1 = false -> r.2 = e)
  /\ (r.1 = true ->
      exists c, GetStatus e id = Some c
        /\ GetStatus r.2 id
           = Some (AsyncCommand.setStatus "cancelled" (AsyncCommand.cancel c)))
  /\ (forall id', id' <> id -> GetStatus r.2 id' = GetStatus e id')
  /\ CancelCommand r.2 id = (false, r.2).
Proof.
  intros r. unfold GetStatus.
  destruct (asyncCommands e !! id) as [c |] eqn:Ec.
  - destruct (String.eqb (AsyncCommand.Status c) "running") eqn:Eb.
    + assert (Hr : r = (true,
                        {| config := config e;
                           asyncCommands :=
                             <[id := AsyncCommand.setStatus "cancelled"
                                       (AsyncCommand.cancel c)]>
                               (asyncCommands e) |})).
      { subst r. unfold CancelCommand. by rewrite Ec, Eb. }
      rewrite Hr. simpl. apply String.eqb_eq in Eb.
      split; [split; [eauto | done] | split; [done | split; [| split]]].
      * intros _. exists c. split; [done |]. apply lookup_insert_eq.
      * intros id' Hne. by rewrite lookup_insert_ne.
      * eapply CancelCommand_not_running;
          [unfold GetStatus; simpl; apply lookup_insert_eq | done].
    + assert (Hr : r = (false, e)).
      { subst r. unfold CancelCommand. by rewrite Ec, Eb. }
      rewrite Hr. simpl. apply String.eqb_neq in Eb.
      split; [split; [done | by intros (c' & [= <-] & ?)] |].
      split; [done | split; [done | split; [done |]]].
      by eapply CancelCommand_not_running.
  - assert (Hr : r = (false, e)).
    { subst r. unfold CancelCommand. by rewrite Ec. }
    rewrite Hr. simpl.
    split; [split; [done | by intros (c' & ? & _)] |].
    split; [done | split; [done | split; [done |]]].
    by apply CancelCommand_unknown.
Qed.

(** X21. No operation of the executor removes a task: an id that is known
    stays known after a spawn, after a cancel and after a watcher's
    transition. *)
Theorem tasks_are_never_removed (e : Executor) (id' : string) :
  is_Some (GetStatus e id') ->
  (forall environ id now startErr command args cwd env,
     is_Some (GetStatus
                (RunAsync e environ id now startErr command args cwd env).2
                id'))
  /\ (forall id, is_Some (GetStatus (CancelCommand e id).2 id'))
  /\ (forall id now err, is_Some (GetStatus (watcherExit e id now err) id')).
Proof.
  unfold GetStatus. intros Hk. split; [| split].
  - intros environ id now [err |] command args cwd env; simpl; [done |].
    rewrite lookup_insert_is_Some. destruct (decide (id = id')); auto.
  - intros id. unfold CancelCommand.
    destruct (asyncCommands e !! id) as [c |]; [| done].
    destruct (String.eqb (AsyncCommand.Status c) "running"); [| done].
    simpl. rewrite lookup_insert_is_Some. destruct (decide (id = id')); auto.
  - intros id now err. simpl. rewrite lookup_alter_is_Some. done.
Qed.

Section Handlers.

Variable marshalIndent : StatusResult -> mcp.Result string.

(** X22. Through the two tools: cancelling a running task answers
    "Command <id> cancelled". A status request served before the watcher's
    three assignments reports "cancelled" with the exit code and output the
    task had, and, no end time being recorded by the cancel, the start time
    under [elapsed_ms]. One served after them reports what the watcher
    wrote, whatever the cancel had written: "failed" with the exit code of
    an exit error (that of the killed subprocess), "completed" with 0 when
    [Wait] returned nil, "cancelled" with -1 for any other error, and a
    duration up to the watcher's clock reading. A second cancel is a handler
    error before and after the watcher's assignments. *)
Theorem status_after_cancel_follows_watcher
    (e : Executor) (id : string) (c : AsyncCommand.t) (now : Time)
    (err : option ProcError) :
  GetStatus e id = Some c ->
  AsyncCommand.Status c = "running" ->
  let params : gmap string Value := {[ "command_id" := VString id ]} in
  let r := handleCancelCommand params e in
  let e' := watcherExit r.2 id now err in
  r.1 = (Some (mcp.TextResult ("Command " +:+ id +:+ " cancelled")), None)
  /\ (exists s,
        handleGetCommandStatus marshalIndent params r.2
        = (match marshalIndent s with
           | mcp.Ok data => (Some (mcp.TextResult data), None)
           | mcp.Err err' => (None, Some err')
           end, r.2)
        /\ command_id s = AsyncCommand.ID c
        /\ status s = "cancelled"
        /\ exit_code s = AsyncCommand.ExitCode c
        /\ stdout s = AsyncCommand.Stdout c
        /\ stderr s = AsyncCommand.Stderr c
        /\ (IsZero (AsyncCommand.EndTime c) = true ->
            duration_ms s = None
            /\ elapsed_ms s = Some (Unix (AsyncCommand.StartTime c))))
  /\ (exists s,
        handleGetCommandStatus marshalIndent params e'
        = (match marshalIndent s with
           | mcp.Ok data => (Some (mcp.TextResult data), None)
           | mcp.Err err' => (None, Some err')
           end, e')
        /\ command_id s = AsyncCommand.ID c
        /\ match err with
           | None => status s = "completed" /\ exit_code s = 0
           | Some (ExitError code) => status s = "failed" /\ exit_code s = code
           | Some (OtherError _) => status s = "cancelled" /\ exit_code s = -1
           end
        /\ stdout s = AsyncCommand.Stdout c
        /\ stderr s = AsyncCommand.Stderr c
        /\ (IsZero now = false ->
            duration_ms s
            = Some (Milliseconds (Sub now (AsyncCommand.StartTime c)))
            /\ elapsed_ms s = None))
  /\ handleCancelCommand params r.2
     = ((None, Some ("command not found or already completed: " +:+ id)),
        r.2)
  /\ handleCancelCommand params e'
     = ((None, Some ("command not found or already completed: " +:+ id)),
        e').
Proof.
  intros Hc Hr params r e'.
  destruct (CancelCommand_twice e id c Hc Hr) as [Hacc Hsecond].
  assert (Hr2 : r = ((Some (mcp.TextResult ("Command " +:+ id +:+ " cancelled")),
                      None), (CancelCommand e id).2)).
  { subst r params. unfold handleCancelCommand, mcp.GetStringParam.
    rewrite lookup_singleton_eq.
    destruct (CancelCommand e id) as [acc e0]. simpl in Hacc. by rewrite Hacc. }
  assert (He2 : (CancelCommand e id).2
                = {| config := config e;
                     asyncCommands :=
                       <[id := AsyncCommand.setStatus "cancelled"
                                 (AsyncCommand.cancel c)]> (asyncCommands e) |}).
  { unfold CancelCommand. unfold GetStatus in Hc. by rewrite Hc, Hr. }
  subst e'. rewrite Hr2. simpl. rewrite He2.
  split; [reflexivity | split; [| split; [| split]]].
  - exists (statusOf (AsyncCommand.setStatus "cancelled"
                        (AsyncCommand.cancel c))).
    split; [| split; [reflexivity | split; [reflexivity |
            split; [reflexivity | split; [reflexivity |
            split; [reflexivity |]]]]]].
    + subst params. unfold handleGetCommandStatus, mcp.GetStringParam.
      rewrite lookup_singleton_eq. unfold GetStatus. simpl.
      rewrite lookup_insert_eq. by destruct (marshalIndent _).
    + intros Hz. unfold statusOf, statusResult. simpl. by rewrite Hz.
  - exists (statusOf (watcherFinish now err
                        (AsyncCommand.setStatus "cancelled"
                           (AsyncCommand.cancel c)))).
    split; [| split; [reflexivity | split; [| split; [reflexivity |
            split; [reflexivity |]]]]].
    + subst params. unfold handleGetCommandStatus, mcp.GetStringParam.
      rewrite lookup_singleton_eq. unfold GetStatus, watcherExit. simpl.
      rewrite lookup_alter_eq, lookup_insert_eq. simpl.
      by destruct (marshalIndent _).
    + by destruct err as [[code | msg] |].
    + intros Hz. unfold statusOf, statusResult. simpl. by rewrite Hz.
  - rewrite <- He2. subst params.
    unfold handleCancelCommand, mcp.GetStringParam.
    rewrite lookup_singleton_eq. by rewrite Hsecond.
  - subst params. unfold handleCancelCommand, mcp.GetStringParam.
    rewrite lookup_singleton_eq. unfold CancelCommand, watcherExit. simpl.
    rewrite lookup_alter_eq, lookup_insert_eq. simpl.
    by destruct err as [[code | msg] |].
Qed.

End Handlers.

End executor_facts.

(** ** The run tools *)

Module runtool_facts.
Import command command_facts.

Section Facts.

Variable floatToIntImpl : float64 -> Z.
Variable environ : list string.
Variable cfg : CommandConfig.
Variable validator : common.CommandValidator.
Variable marshalResult : CommandResult.t -> mcp.Result string.
Variable marshalSpawned : string -> mcp.Result string.

#[local] Abbreviation handleRunCommand' :=
  (handleRunCommand floatToIntImpl environ cfg validator marshalResult).
#[local] Abbreviation handleRunCommandAsync' :=
  (handleRunCommandAsync environ validator marshalSpawned).

(** The arguments the run tools pass on. *)
#[local] Abbreviation argsOf params :=
  (mcp.valueOrZero [] (mcp.GetStringArrayParam params "args" false)).

(** X23. [run_command] runs nothing it rejects: when the command is missing
    or not a string, or when the validator refuses the command with the
    arguments given, the handler returns that error whatever the operating
    system would have done with the command. *)
Theorem handleRunCommand_runs_nothing_rejected
    (params : gmap string Value) (err : error) :
  mcp.GetStringParam params "command" true = mcp.Err err
  \/ (exists command,
        params !! "command" = Some (VString command)
        /\ common.ValidateCommand validator command (argsOf params)
           = Some err) ->
  forall run, handleRunCommand' run params = Some (None, Some err).
Proof.
  intros [H | (command & Hc & Hv)] run; unfold handleRunCommand.
  - by rewrite H.
  - unfold mcp.GetStringParam at 1. rewrite Hc. by rewrite Hv.
Qed.

(** X24. A failing subprocess is not a handler error: once the command is
    accepted, and provided the ceiling is not negative and the result can be
    encoded, [run_command] returns a text result that is not flagged as an
    error, whatever the subprocess did (non-zero exit, timeout, failure to
    start). *)
Theorem handleRunCommand_reports_failures_as_results
    (run : Cmd -> Z -> RunOutcome) (params : gmap string Value)
    (command : string) :
  0 <= MaxOutputSizeBytes cfg ->
  (forall r, exists data, marshalResult r = mcp.Ok data) ->
  params !! "command" = Some (VString command) ->
  common.ValidateCommand validator command (argsOf params) = None ->
  exists data,
    handleRunCommand' run params = Some (Some (mcp.TextResult data), None)
    /\ mcp.IsError (mcp.TextResult data) = false.
Proof.
  intros Hmax Hm Hc Hv. unfold handleRunCommand.
  unfold mcp.GetStringParam at 1. rewrite Hc, Hv.
  unfold RunSync, syncResult, truncateResult.
  set (r0 := recordError _ _ _).
  destruct (truncateOutput_truncatedTo (MaxOutputSizeBytes cfg)
              (CommandResult.Stdout r0) Hmax) as (out & -> & _).
  destruct (truncateOutput_truncatedTo (MaxOutputSizeBytes cfg)
              (CommandResult.Stderr r0) Hmax) as (errs & -> & _).
  unfold mcp.JSONResult.
  match goal with |- context [marshalResult ?r] =>
    destruct (Hm r) as [data ->] end.
  by exists data.
Qed.

Lemma valueOrZero_Err {A : Type} (zero : A) (r : mcp.Result A) :
  mcp.isErr r = true -> mcp.valueOrZero zero r = zero.
Proof. by destruct r. Qed.

Lemma RunSync_zero_timeout (run : Cmd -> Z -> RunOutcome) (command : string)
    (args : list string) (cwd : string) (env : gmap string string) :
  RunSync cfg environ run command args cwd env 0
  = RunSync cfg environ run command args cwd env (DefaultTimeoutSeconds cfg).
Proof.
  unfold RunSync, effectiveTimeout. simpl.
  by destruct (Z.leb_spec (DefaultTimeoutSeconds cfg) 0).
Qed.

(** X25. [run_command] ignores an optional parameter of the wrong type: when
    the helper for [args], [cwd], [env] or [timeout_seconds] reports an error,
    the call behaves exactly as if that parameter had not been given. *)
Theorem handleRunCommand_ignores_mistyped_optional
    (run : Cmd -> Z -> RunOutcome) (params : gmap string Value)
    (key : string) :
  mistyped floatToIntImpl cfg params key ->
  handleRunCommand' run params = handleRunCommand' run (delete key params).
Proof.
  intros [[-> H] | [[-> H] | [[-> H] | [-> H]]]]; unfold handleRunCommand.
  - rewrite (valueOrZero_Err _ _ H).
    unfold mcp.GetStringParam, mcp.GetStringArrayParam, mcp.GetMapParam,
      mcp.GetIntParam.
    rewrite lookup_delete_eq, !lookup_delete_ne by done. reflexivity.
  - rewrite (valueOrZero_Err _ _ H).
    unfold mcp.GetStringParam, mcp.GetStringArrayParam, mcp.GetMapParam,
      mcp.GetIntParam.
    rewrite lookup_delete_eq, !lookup_delete_ne by done. reflexivity.
  - rewrite (valueOrZero_Err _ _ H).
    unfold mcp.GetStringParam, mcp.GetStringArrayParam, mcp.GetMapParam,
      mcp.GetIntParam.
    rewrite lookup_delete_eq, !lookup_delete_ne by done. reflexivity.
  - rewrite (valueOrZero_Err _ _ H).
    unfold mcp.GetStringParam, mcp.GetStringArrayParam, mcp.GetMapParam,
      mcp.GetIntParam.
    rewrite lookup_delete_eq, !lookup_delete_ne by done. simpl.
    destruct (params !! "command") as [[] |]; try reflexivity.
    destruct (common.ValidateCommand _ _ _); [reflexivity |].
    by rewrite RunSync_zero_timeout.
Qed.

(** X26. [run_command_async] stores a task only when it starts one: a
    missing command, a command the validator refuses and a subprocess that
    does not start each give a handler error and leave the executor as it
    was; otherwise the task is stored as running under the drawn id, which
    the answer encodes. *)
Theorem handleRunCommandAsync_stores_only_started
    (id : string) (now : Time) (startErr : option error)
    (params : gmap string Value) (e : Executor) :
  let r := handleRunCommandAsync' id now startErr params e in
  (forall err, mcp.GetStringParam params "command" true = mcp.Err err ->
     r = ((None, Some err), e))
  /\ (forall command,
        params !! "command" = Some (VString command) ->
        match common.ValidateCommand validator command (argsOf params),
              startErr with
        | Some err, _ => r = ((None, Some err), e)
        | None, Some err => r = ((None, Some err), e)
        | None, None =>
            r.1 = mcp.JSONResult marshalSpawned id
            /\ (exists c, GetStatus r.2 id = Some c
                  /\ AsyncCommand.Status c = "running"
                  /\ Path (AsyncCommand.Cmd c) = command
                  /\ Args (AsyncCommand.Cmd c) = argsOf params)
        end).
Proof.
  intros r. subst r. unfold handleRunCommandAsync. split.
  - by intros err ->.
  - intros command Hc. unfold mcp.GetStringParam at 1 3 5 7. rewrite Hc.
    destruct (common.ValidateCommand validator command (argsOf params));
      [by destruct startErr |].
    destruct startErr as [err |]; simpl; [reflexivity |].
    split; [reflexivity |]. eexists. unfold GetStatus. simpl.
    rewrite lookup_insert_eq. by repeat split.
Qed.

End Facts.

End runtool_facts.

(** ** One task against its watcher: further invariants *)

Module interleaving_facts.
Import command command_facts.

Lemma CancelInv_spawned (id : string) (cmd : Cmd) (now : Time) :
  CancelInv (spawned id cmd now).
Proof. constructor; unfold accepted; simpl; intros; try done; lia. Qed.

Lemma watcherStatus_not_running (err : option ProcError) :
  watcherStatus err <> "running".
Proof. by destruct err as [[code | msg] |]. Qed.

Lemma step_CancelInv (ev : Event) (c c' : Config) :
  CancelInv c -> step ev c = Some c' -> CancelInv c'.
Proof.
  intros [Hrun Hcan Hone Hdone] Hstep.
  destruct c as [t pc h snaps cans]. simpl in *.
  destruct ev; simpl in Hstep; unfold stepWatcher, stepRead in Hstep;
    simpl in Hstep; repeat inv_step; subst;
    constructor; simpl in *; unfold accepted in *; simpl in *.
  all: try done.
  all: try (intros; exfalso; by eapply watcherStatus_not_running).
  all: try (intros _; apply watcherStatus_not_running).
  all: try (apply String.eqb_eq in Heqb; specialize (Hrun Heqb); lia).
  all: try (apply String.eqb_neq in Heqb; done).
  all: try (specialize (Hcan I); lia).
Qed.

Lemma exec_CancelInv (evs : list Event) :
  forall c c', CancelInv c -> exec evs c = Some c' -> CancelInv c'.
Proof.
  induction evs as [| ev evs IH]; intros c c' Hc Hrun; simpl in Hrun.
  - by injection Hrun as <-.
  - destruct (step ev c) as [c1 |] eqn:Hstep; [| discriminate].
    eapply IH; [| exact Hrun]. by eapply step_CancelInv.
Qed.

(** X27. Whatever the interleaving of requests with the watcher, at most one
    cancel request is accepted for a task, none is accepted while the task
    still reads "running", and once the watcher has finished the task does
    not read "running". *)
Theorem cancel_is_accepted_at_most_once
    (id : string) (cmd : Cmd) (now : Time) (evs : list Event) (c : Config) :
  exec evs (spawned id cmd now) = Some c ->
  (accepted (cancels c) <= 1)%nat
  /\ (AsyncCommand.Status (task c) = "running" ->
      accepted (cancels c) = 0%nat)
  /\ (watcherDone (watcher c) -> AsyncCommand.Status (task c) <> "running").
Proof.
  intros Hrun.
  destruct (exec_CancelInv evs _ _ (CancelInv_spawned id cmd now) Hrun)
    as [H1 _ H3 H4].
  by repeat split.
Qed.

Lemma SettledFrom_refl (c : Config) : handler c = HIdle -> SettledFrom c c.
Proof.
  intros Hh. constructor; try done.
  - by rewrite Hh.
  - by exists [].
  - by exists [].
Qed.

Lemma step_SettledFrom (ev : Event) (c c1 c2 : Config) :
  watcherDone (watcher c) ->
  AsyncCommand.Status (task c) <> "running" ->
  SettledFrom c c1 -> step ev c1 = Some c2 -> SettledFrom c c2.
Proof.
  intros Hdone Hnr [Ht Hw Hh (ns & Hs & Hns) (nc & Hc & Hnc)] Hstep.
  destruct c1 as [t1 pc1 h1 snaps1 cans1]. simpl in *. subst t1 pc1.
  destruct (watcher c) as [| | | | err] eqn:Ew; try done.
  destruct ev; simpl in Hstep; unfold stepRead in Hstep; simpl in Hstep;
    try discriminate Hstep.
  - (* a status request starts *)
    destruct h1; try discriminate Hstep. injection Hstep as <-.
    constructor; simpl; eauto. by repeat split.
  - (* Status is read *)
    destruct h1 as [| p | |]; try discriminate Hstep.
    destruct (p_status p) eqn:E; [discriminate Hstep |].
    injection Hstep as <-. destruct Hh as (H1 & H2 & H3 & H4).
    constructor; simpl; eauto.
    repeat split; simpl; eauto; by intros x [= <-].
  - (* ExitCode is read *)
    destruct h1 as [| p | |]; try discriminate Hstep.
    destruct (p_exit_code p) eqn:E; [discriminate Hstep |].
    injection Hstep as <-. destruct Hh as (H1 & H2 & H3 & H4).
    constructor; simpl; eauto.
    repeat split; simpl; eauto; by intros x [= <-].
  - (* Stdout is read *)
    destruct h1 as [| p | |]; try discriminate Hstep.
    destruct (p_stdout p) eqn:E; [discriminate Hstep |].
    injection Hstep as <-. destruct Hh as (H1 & H2 & H3 & H4).
    constructor; simpl; eauto.
    repeat split; simpl; eauto; by intros x [= <-].
  - (* Stderr is read *)
    destruct h1 as [| p | |]; try discriminate Hstep.
    destruct (p_stderr p) eqn:E; [discriminate Hstep |].
    injection Hstep as <-. destruct Hh as (H1 & H2 & H3 & H4).
    constructor; simpl; eauto.
    repeat split; simpl; eauto; by intros x [= <-].
  - (* EndTime is read and the snapshot returned *)
    destruct h1 as [| p | |]; try discriminate Hstep.
    destruct (p_status p) as [st |] eqn:E1; [| discriminate Hstep].
    destruct (p_exit_code p) as [code |] eqn:E2; [| discriminate Hstep].
    destruct (p_stdout p) as [out |] eqn:E3; [| discriminate Hstep].
    destruct (p_stderr p) as [errs |] eqn:E4; [| discriminate Hstep].
    injection Hstep as <-. destruct Hh as (H1 & H2 & H3 & H4).
    rewrite (H1 _ E1), (H2 _ E2), (H3 _ E3), (H4 _ E4).
    constructor; simpl; eauto.
    exists (statusOf (task c) :: ns). split; [by rewrite Hs |].
    by constructor.
  - (* a cancel request *)
    destruct h1; try discriminate Hstep.
    destruct (String.eqb_spec (AsyncCommand.Status (task c)) "running");
      [done |].
    injection Hstep as <-.
    constructor; simpl; eauto.
    exists (false :: nc). split; [by rewrite Hc |]. by constructor.
  - (* the next statement of a cancel request: none is in flight *)
    destruct h1; try discriminate Hstep; done.
Qed.

Lemma exec_SettledFrom (evs : list Event) (c : Config) :
  watcherDone (watcher c) ->
  AsyncCommand.Status (task c) <> "running" ->
  forall c1 c2, SettledFrom c c1 -> exec evs c1 = Some c2 -> SettledFrom c c2.
Proof.
  intros Hdone Hnr.
  induction evs as [| ev evs IH]; intros c1 c2 Hc Hrun; simpl in Hrun.
  - by injection Hrun as <-.
  - destruct (step ev c1) as [c1' |] eqn:Hstep; [| discriminate].
    eapply IH; [| exact Hrun]. by eapply step_SettledFrom.
Qed.

(** X28. Once the watcher of a task has finished and no request is in
    flight, the task record never changes again: whatever requests follow,
    every status snapshot they produce is the same (the snapshot of that
    record) and every cancel is refused. *)
Theorem settled_task_is_frozen
    (id : string) (cmd : Cmd) (now : Time) (before after : list Event)
    (c c' : Config) :
  exec before (spawned id cmd now) = Some c ->
  watcherDone (watcher c) ->
  handler c = HIdle ->
  exec after c = Some c' ->
  task c' = task c
  /\ (exists new, snapshots c' = (new ++ snapshots c)%list
        /\ Forall (λ r, r = statusOf (task c)) new)
  /\ (exists new, cancels c' = (new ++ cancels c)%list
        /\ Forall (λ b, b = false) new).
Proof.
  intros Hreach Hdone Hidle Hrun.
  pose proof (exec_CancelInv before _ _ (CancelInv_spawned id cmd now) Hreach)
    as HI.
  pose proof (cinv_done c HI Hdone) as Hnr.
  destruct (exec_SettledFrom after c Hdone Hnr c c'
              (SettledFrom_refl c Hidle) Hrun) as [Ht _ _ Hs Hc].
  by repeat split.
Qed.

Lemma append_empty (a : string) : a +:+ "" = a.
Proof. induction a as [| x a IH]; [reflexivity |]. by rewrite <- IH at 2. Qed.

Lemma append_assoc (a b c : string) : (a +:+ b) +:+ c = a +:+ (b +:+ c).
Proof.
  induction a as [| x a IH]; [reflexivity |].
  change (String x ((a +:+ b) +:+ c) = String x (a +:+ (b +:+ c))).
  by rewrite IH.
Qed.

Lemma Grows_refl (c : Config) : Grows c c.
Proof.
  constructor; try done; try (exists ""; by rewrite append_empty).
Qed.

Lemma Grows_trans (c1 c2 c3 : Config) : Grows c1 c2 -> Grows c2 c3 -> Grows c1 c3.
Proof.
  intros [Hi1 Hc1 Hs1 [a1 Ho1] [b1 He1] Hw1] [Hi2 Hc2 Hs2 [a2 Ho2] [b2 He2] Hw2].
  constructor; try congruence.
  - exists (a1 +:+ a2). by rewrite Ho2, Ho1, append_assoc.
  - exists (b1 +:+ b2). by rewrite He2, He1, append_assoc.
  - intros H. destruct (Hw1 H) as (H2 & Ho & He).
    destruct (Hw2 H2) as (H3 & Ho' & He'). split; [done |]. split; congruence.
Qed.

Lemma step_Grows (ev : Event) (c c' : Config) : step ev c = Some c' -> Grows c c'.
Proof.
  intros Hstep. destruct c as [t pc h snaps cans].
  destruct ev; simpl in Hstep; unfold stepWatcher, stepRead in Hstep;
    simpl in Hstep; repeat inv_step; subst;
    constructor; simpl; try done;
    try (exists ""; by rewrite append_empty); eauto.
Qed.

Lemma exec_Grows (evs : list Event) :
  forall c c', exec evs c = Some c' -> Grows c c'.
Proof.
  induction evs as [| ev evs IH]; intros c c' Hrun; simpl in Hrun.
  - injection Hrun as <-. apply Grows_refl.
  - destruct (step ev c) as [c1 |] eqn:Hstep; [| discriminate].
    eapply Grows_trans; [by eapply step_Grows | by apply IH].
Qed.

(** X29. Between any two moments of a task's life its id, command and start
    time are the same and each captured output has only grown: the later
    content starts with the earlier one. Once [cmd.Wait()] has returned, the
    outputs do not change any more. *)
Theorem captured_output_is_append_only
    (evs : list Event) (c c' : Config) :
  exec evs c = Some c' ->
  AsyncCommand.ID (task c') = AsyncCommand.ID (task c)
  /\ AsyncCommand.Cmd (task c') = AsyncCommand.Cmd (task c)
  /\ AsyncCommand.StartTime (task c') = AsyncCommand.StartTime (task c)
  /\ (exists more,
        AsyncCommand.Stdout (task c') = AsyncCommand.Stdout (task c) +:+ more)
  /\ (exists more,
        AsyncCommand.Stderr (task c') = AsyncCommand.Stderr (task c) +:+ more)
  /\ (watcher c <> WWait ->
      AsyncCommand.Stdout (task c') = AsyncCommand.Stdout (task c)
      /\ AsyncCommand.Stderr (task c') = AsyncCommand.Stderr (task c)).
Proof.
  intros Hrun. destruct (exec_Grows evs c c' Hrun) as [H1 H2 H3 H4 H5 H6].
  repeat split; try done; by destruct (H6 ltac:(done)) as (_ & ? & ?).
Qed.

End interleaving_facts.

(** ** Instances of the further properties *)

Module more_examples.
Import mcp mcp_facts command command_facts fixtures.
Import server_facts executor_facts runtool_facts interleaving_facts.

Lemma threeTools_keyedByName : keyedByName unit threeTools.
Proof.
  repeat apply RegisterTool_keyedByName. apply NewServer_keyedByName.
Qed.

Lemma listTools_one_entry_per_tool_witness :
  exists l,
    handleRequest unit demoUnmarshalCallParams demoMarshal threeTools
      (methodRequest "tools/list") tt
    = (["tools: " +:+ String.concat "," (info_name <$> l)], tt)
    /\ NoDup (info_name <$> l)
    /\ length l = size (tools unit threeTools)
    /\ (forall i, i ∈ l
          <-> exists t, tools unit threeTools !! info_name i = Some t
                        /\ info_description i = Description unit t
                        /\ info_inputSchema i = InputSchema unit t).
Proof.
  apply (listTools_one_entry_per_tool demoUnmarshalCallParams demoMarshal
           threeTools (methodRequest "tools/list") tt
           threeTools_keyedByName eq_refl).
Defined.

Lemma RegisterTool_distinct_names_witness :
  RegisterTool unit
    (RegisterTool unit (NewServer unit "s" "1") (namedTool "a"))
    (namedTool "b")
  = RegisterTool unit
      (RegisterTool unit (NewServer unit "s" "1") (namedTool "b"))
      (namedTool "a").
Proof.
  apply (proj1 (RegisterTool_distinct_names (NewServer unit "s" "1")
                  (namedTool "a") (namedTool "b") ltac:(discriminate))).
Defined.

Lemma unknown_method_is_protocol_error_witness :
  handleRequest unit demoUnmarshalCallParams demoMarshal threeTools
    (methodRequest "resources/list") tt
  = (["Method not found"], tt).
Proof.
  apply (unknown_method_is_protocol_error demoUnmarshalCallParams demoMarshal
           threeTools (methodRequest "resources/list") tt "Method not found");
    (discriminate || reflexivity).
Defined.

Lemma undecodable_call_is_invalid_params_witness :
  handleRequest unit strictUnmarshalCallParams demoMarshal threeTools
    (methodRequest "tools/call") tt
  = (["Invalid params"], tt).
Proof.
  apply (undecodable_call_is_invalid_params strictUnmarshalCallParams
           demoMarshal threeTools (methodRequest "tools/call") tt
           "unexpected end of JSON input" "Invalid params");
    reflexivity.
Defined.

Lemma handler_result_is_passed_through_witness :
  handleRequest unit demoUnmarshalCallParams demoMarshal threeTools
    (callRequest "read_file") tt
  = (["tool result"], tt).
Proof.
  apply (handler_result_is_passed_through demoUnmarshalCallParams demoMarshal
           threeTools (callRequest "read_file") tt tt "read_file" ∅
           (namedTool "read_file") (Some (TextResult "read_file"))
           "tool result");
    reflexivity.
Defined.

Lemma Run_stops_when_cancelled_witness :
  let r := Run unit demoUnmarshalRequest demoUnmarshalCallParams demoMarshal
             threeTools (doneFrom 1) None
             ["garbage"; "{read_file"; "{write_file"] tt in
  run_err unit r = Some "context canceled"
  /\ run_output unit r = ["Parse error"].
Proof.
  destruct (Run_stops_when_cancelled demoUnmarshalRequest
              demoUnmarshalCallParams demoMarshal threeTools (doneFrom 1)
              None ["garbage"] "{read_file" ["{write_file"] tt)
    as (H1 & H2 & _).
  - intros j Hj. simpl in Hj. by replace j with 0%nat by lia.
  - reflexivity.
  - split; [exact H1 | exact H2].
Defined.

Lemma Run_returns_read_error_last_witness :
  let r := Run unit demoUnmarshalRequest demoUnmarshalCallParams demoMarshal
             threeTools (fun _ => false)
             (Some "bufio.Scanner: token too long") noisyFrames tt in
  run_err unit r = Some "bufio.Scanner: token too long"
  /\ run_output unit r = ["Parse error"; "Parse error"].
Proof.
  destruct (Run_returns_read_error_last demoUnmarshalRequest
              demoUnmarshalCallParams demoMarshal threeTools (fun _ => false)
              (Some "bufio.Scanner: token too long") noisyFrames tt
              (fun _ => eq_refl)) as (H1 & H2 & _).
  split; [exact H1 | exact H2].
Defined.

Lemma RunSync_output_is_bounded_witness :
  Z.of_nat (String.length (CommandResult.Stdout lateResult)) <= 4 + 16
  /\ Z.of_nat (String.length (CommandResult.Stderr lateResult)) <= 4 + 16.
Proof.
  apply (RunSync_output_is_bounded smallCeiling [] (fun _ _ => lateOutcome)
           "make" [] "" ∅ 1 lateResult).
  reflexivity.
Defined.

Lemma tasks_are_never_removed_witness :
  (forall environ id now startErr command args cwd env,
     is_Some (GetStatus
                (RunAsync runningSleep environ id now startErr command args
                   cwd env).2 "t1"))
  /\ (forall id, is_Some (GetStatus (CancelCommand runningSleep id).2 "t1"))
  /\ (forall id now err,
        is_Some (GetStatus (watcherExit runningSleep id now err) "t1")).
Proof.
  apply (tasks_are_never_removed runningSleep "t1").
  eexists. reflexivity.
Defined.

Lemma status_after_cancel_follows_watcher_witness :
  (handleCancelCommand {[ "command_id" := VString "t1" ]} runningSleep).1
  = (Some (TextResult "Command t1 cancelled"), None)
  /\ (handleGetCommandStatus demoMarshalIndent
        {[ "command_id" := VString "t1" ]}
        (handleCancelCommand {[ "command_id" := VString "t1" ]}
           runningSleep).2).1
     = (Some (TextResult "cancelled"), None)
  /\ (handleGetCommandStatus demoMarshalIndent
        {[ "command_id" := VString "t1" ]}
        (watcherExit
           (handleCancelCommand {[ "command_id" := VString "t1" ]}
              runningSleep).2
           "t1" 3000000000 (Some (ExitError (-1))))).1
     = (Some (TextResult "failed"), None).
Proof.
  destruct (status_after_cancel_follows_watcher demoMarshalIndent
              runningSleep "t1"
              (newAsyncCommand "t1"
                 (newCmd defaultConfig [] "sleep" ["10"] "" ∅)
                 1000000000)
              3000000000 (Some (ExitError (-1)))
              ltac:(reflexivity) ltac:(reflexivity))
    as (H1 & (s1 & E1 & _ & S1 & _) & (s2 & E2 & _ & [S2 _] & _) & _).
  split; [exact H1 | split].
  - rewrite E1. unfold demoMarshalIndent. by rewrite S1.
  - rewrite E2. unfold demoMarshalIndent. by rewrite S2.
Defined.

Lemma handleRunCommand_runs_nothing_rejected_witness :
  handleRunCommand (fun _ => minInt) [] defaultConfig defaultValidator
    demoMarshalResult failingRun
    {[ "command" := VString "sudo"; "args" := VArray [VString "reboot"] ]}
  = Some (None,
          Some "command denied: command matches denied pattern: sudo").
Proof.
  apply (handleRunCommand_runs_nothing_rejected (fun _ => minInt) []
           defaultConfig defaultValidator demoMarshalResult
           {[ "command" := VString "sudo";
              "args" := VArray [VString "reboot"] ]}
           "command denied: command matches denied pattern: sudo").
  right. exists "sudo". split; reflexivity.
Defined.

Lemma handleRunCommand_reports_failures_as_results_witness :
  exists data,
    handleRunCommand (fun _ => minInt) [] defaultConfig defaultValidator
      demoMarshalResult failingRun {[ "command" := VString "false" ]}
    = Some (Some (TextResult data), None)
    /\ IsError (TextResult data) = false.
Proof.
  apply (handleRunCommand_reports_failures_as_results (fun _ => minInt) []
           defaultConfig defaultValidator demoMarshalResult failingRun
           {[ "command" := VString "false" ]} "false").
  - simpl. lia.
  - intros r. by eexists.
  - reflexivity.
  - reflexivity.
Defined.

Lemma handleRunCommand_ignores_mistyped_optional_witness :
  handleRunCommand (fun _ => minInt) [] defaultConfig defaultValidator
    demoMarshalResult failingRun
    {[ "command" := VString "ls"; "args" := VString "-l" ]}
  = handleRunCommand (fun _ => minInt) [] defaultConfig defaultValidator
      demoMarshalResult failingRun
      (delete "args"
         {[ "command" := VString "ls"; "args" := VString "-l" ]}).
Proof.
  apply (handleRunCommand_ignores_mistyped_optional (fun _ => minInt) []
           defaultConfig defaultValidator demoMarshalResult failingRun
           {[ "command" := VString "ls"; "args" := VString "-l" ]} "args").
  left. split; reflexivity.
Defined.

Lemma cancel_is_accepted_at_most_once_witness :
  (accepted (cancels (after (cancelThenKilled ++ [EvCancel]))) <= 1)%nat
  /\ (AsyncCommand.Status (task (after (cancelThenKilled ++ [EvCancel])))
      = "running" ->
      accepted (cancels (after (cancelThenKilled ++ [EvCancel]))) = 0%nat)
  /\ (watcherDone (watcher (after (cancelThenKilled ++ [EvCancel]))) ->
      AsyncCommand.Status (task (after (cancelThenKilled ++ [EvCancel])))
      <> "running").
Proof.
  apply (cancel_is_accepted_at_most_once "t1" sleepCmd 1000000000
           (cancelThenKilled ++ [EvCancel])).
  vm_compute. reflexivity.
Defined.

Lemma settled_task_is_frozen_witness :
  task (after (cleanExit ++ query ++ [EvCancel] ++ query))
  = task (after cleanExit)
  /\ (exists new,
        snapshots (after (cleanExit ++ query ++ [EvCancel] ++ query))
        = (new ++ snapshots (after cleanExit))%list
        /\ Forall (λ r, r = statusOf (task (after cleanExit))) new)
  /\ (exists new,
        cancels (after (cleanExit ++ query ++ [EvCancel] ++ query))
        = (new ++ cancels (after cleanExit))%list
        /\ Forall (λ b, b = false) new).
Proof.
  apply (settled_task_is_frozen "t1" sleepCmd 1000000000 cleanExit
           (query ++ [EvCancel] ++ query)); vm_compute; (reflexivity || exact I).
Defined.

Lemma captured_output_is_append_only_witness :
  exists more,
    AsyncCommand.Stdout (task (after [EvStdout "a"; EvQuery; EvStdout "b"]))
    = AsyncCommand.Stdout (task (after [EvStdout "a"])) +:+ more.
Proof.
  refine (proj1 (proj2 (proj2 (proj2
            (captured_output_is_append_only [EvQuery; EvStdout "b"]
               (after [EvStdout "a"])
               (after [EvStdout "a"; EvQuery; EvStdout "b"]) _))))).
  vm_compute. reflexivity.
Defined.

End more_examples.
